(** * WebGL-plot examples: the line buffer and the plot surface

    A shallow embedding of the classes bundled in
    [vanilla/dist/microphone.js]: [ColorRGBA], [WebglBaseLine],
    [WebglLine] (the line buffer) and [WebGLPlot] (the renderer), followed
    by the properties of the line buffer and of [WebGLPlot.update].

    JavaScript numbers are IEEE 754 binary64 values, which is what Rocq's
    primitive [float] is.  A [Float32Array] keeps binary32 values: a store
    rounds the number to the nearest binary32 value ([fround]) and a load
    returns it unchanged.  Point indices, array keys and loop counters
    are integers ([Z]).  Methods are written in a small monad that
    threads the receiver ([this]) and yields a completion, normal or
    abrupt, as a JavaScript call does. *)

From Stdlib Require Import ZArith Lia String.
From Stdlib Require Import Floats.PrimFloat Floats.SpecFloat Floats.FloatOps.
From Stdlib Require Import Floats.FloatAxioms.
From stdpp Require Import base list.

Local Open Scope Z_scope.

(* ================================================================== *)
(** * Part I: the embedding                                             *)
(* ================================================================== *)

(** ** Numbers *)

(** [Math.fround]: the binary32 value nearest to [x] (ties to even), as a
    binary64 number.  This is the conversion of a [Float32Array] store. *)
Definition fround (x : float) : float :=
  match Prim2SF x with
  | S754_finite s m e =>
      SF2Prim (binary_normalize 24 128 (if s then Z.neg m else Z.pos m) e s)
  | _ => x
  end.

(** The number an integer loop counter stands for: the counter itself
    below 2^53, which bounds the length of any array. *)
Definition Z2float (z : Z) : float :=
  SF2Prim (binary_normalize prec emax z 0 false).

(** [x] is a binary32 value: storing it in a [Float32Array] keeps it. *)
Definition is_f32 (x : float) : Prop := fround x = x.

(** ** Values and completions *)

(** The JavaScript values that flow through the line buffer: a number, or
    [undefined] (what an out-of-range element read yields). *)
Inductive value : Type :=
| undefined
| number (x : float).

Definition ToNumber (v : value) : float :=
  match v with
  | undefined => nan
  | number x => x
  end.

(** Errors.  [RangeError] is JavaScript's (a typed array of negative
    length).  The other three are the error taxonomy of the specification;
    no function of the source raises them. *)
Inductive error : Type :=
| RangeError
| IndexOutOfRange
| InvalidArgument
| BackendResourceError.

Inductive completion (A : Type) : Type :=
| Normal (a : A)
| Throw (e : error).
Arguments Normal {A} a.
Arguments Throw {A} e.

(** A method with receiver state [S]: it yields a completion and the
    state it leaves behind (mutations survive an abrupt completion). *)
Definition M (S A : Type) : Type := S -> completion A * S.

Definition ret {S A} (a : A) : M S A := fun s => (Normal a, s).

Definition bind {S A B} (m : M S A) (k : A -> M S B) : M S B :=
  fun s =>
    match m s with
    | (Normal a, s') => k a s'
    | (Throw e, s') => (Throw e, s')
    end.

Definition gets {S A} (f : S -> A) : M S A := fun s => (Normal (f s), s).
Definition modify {S} (f : S -> S) : M S unit := fun s => (Normal tt, f s).

Notation "x <- m ;; k" := (bind m (fun x => k))
  (at level 100, m at next level, k at level 200, only parsing).
Notation "m ;; k" := (bind m (fun _ => k))
  (at level 100, k at level 200, only parsing).

(** [for (let i = i0; ...; i++) body], for a loop that runs [iters]
    times. *)
Fixpoint for_loop {S} (i : Z) (iters : nat) (body : Z -> M S unit) : M S unit :=
  match iters with
  | O => ret tt
  | Datatypes.S k => body i ;; for_loop (i + 1) k body
  end.

(** [for (let i = 0; i < bound; i++) body], for a bound the body leaves
    alone: no iteration at all when [bound <= 0]. *)
Definition for_upto {S} (bound : Z) (body : Z -> M S unit) : M S unit :=
  for_loop 0 (Z.to_nat bound) body.

(** [array.forEach(callback)]. *)
Fixpoint forEach {S A} (l : list A) (callback : A -> M S unit) : M S unit :=
  match l with
  | [] => ret tt
  | x :: l' => callback x ;; forEach l' callback
  end.

(** ** Arrays *)

(** A [Float32Array] is its sequence of elements, each a binary32 value
    held as a number. *)
Abbreviation Float32Array := (list float).

(** [new Float32Array(length)]: zero filled.  A negative length throws,
    and so does a length above 2^53 - 1 or above [engine_limit], the
    largest length the engine is able to allocate when the array is
    created. *)
Definition Float32Array_new (engine_limit : Z) (length : Z) : completion Float32Array :=
  if (length <? 0) || (Z.min engine_limit (2 ^ 53 - 1) <? length)
  then Throw RangeError
  else Normal (replicate (Z.to_nat length) zero).

(** [new Float32Array([x0, x1, ...])]: each element is rounded. *)
Definition Float32Array_of (elements : list float) : Float32Array :=
  map fround elements.

(** [a[key]] for an integer key: [undefined] outside the array. *)
Definition Float32Array_get (a : Float32Array) (key : Z) : value :=
  if 0 <=? key then
    match a !! Z.to_nat key with
    | Some x => number x
    | None => undefined
    end
  else undefined.

(** [a[key] = v] for an integer key: the value is converted to a number
    and rounded to binary32; a store outside the array does nothing (a
    typed array is never extended). *)
Definition Float32Array_set (a : Float32Array) (key : Z) (v : value) : Float32Array :=
  if 0 <=? key then <[Z.to_nat key := fround (ToNumber v)]> a else a.

(** [data[i]] for an array of numbers [data]. *)
Definition Array_get (data : list float) (i : Z) : value :=
  if 0 <=? i then
    match data !! Z.to_nat i with
    | Some x => number x
    | None => undefined
    end
  else undefined.

(** ** ColorRGBA *)

Record ColorRGBA : Type := mkColorRGBA { r : float; g : float; b : float; a : float }.

(** ** Handles of the drawing backend *)

Inductive glvalue : Type :=
| GLnumber (z : Z)
| WebGLBuffer (id : nat)
| WebGLProgram (id : nat)
| WebGLUniformLocation (program : glvalue) (name : string)
| AttribLocation (program : glvalue) (name : string).

(** ** WebglBaseLine and WebglLine *)

Record WebglLine : Type := mkWebglLine {
  scaleX : float;
  scaleY : float;
  offsetX : float;
  offsetY : float;
  loop : bool;
  _vbuffer : glvalue;
  _coord : glvalue;
  visible : bool;
  intensity : float;
  xy : Float32Array;
  numPoints : Z;
  color : ColorRGBA;
  webglNumPoints : Z
}.

(** The state the [WebglBaseLine] constructor leaves. *)
Definition WebglBaseLine : WebglLine :=
  {| scaleX := 1; scaleY := 1; offsetX := 0; offsetY := 0;
     loop := false; _vbuffer := GLnumber 0; _coord := GLnumber 0;
     visible := true; intensity := 1; xy := [];
     numPoints := 0; color := mkColorRGBA 0 0 0 1; webglNumPoints := 0 |}.

Definition set_xy (a : Float32Array) (this : WebglLine) : WebglLine :=
  {| scaleX := scaleX this; scaleY := scaleY this;
     offsetX := offsetX this; offsetY := offsetY this;
     loop := loop this; _vbuffer := _vbuffer this; _coord := _coord this;
     visible := visible this; intensity := intensity this; xy := a;
     numPoints := numPoints this; color := color this;
     webglNumPoints := webglNumPoints this |}.

Definition set_vbuffer (h : glvalue) (this : WebglLine) : WebglLine :=
  {| scaleX := scaleX this; scaleY := scaleY this;
     offsetX := offsetX this; offsetY := offsetY this;
     loop := loop this; _vbuffer := h; _coord := _coord this;
     visible := visible this; intensity := intensity this; xy := xy this;
     numPoints := numPoints this; color := color this;
     webglNumPoints := webglNumPoints this |}.

Definition set_coord (h : glvalue) (this : WebglLine) : WebglLine :=
  {| scaleX := scaleX this; scaleY := scaleY this;
     offsetX := offsetX this; offsetY := offsetY this;
     loop := loop this; _vbuffer := _vbuffer this; _coord := h;
     visible := visible this; intensity := intensity this; xy := xy this;
     numPoints := numPoints this; color := color this;
     webglNumPoints := webglNumPoints this |}.

Module WebglLine.

(** [new WebglLine(c, numPoints)]: the fields [super()] leaves, then the
    point counts, the color and a zero-filled buffer, for an engine that
    allocates typed arrays up to [engine_limit]. *)
Definition new (engine_limit : Z) (c : ColorRGBA) (numPoints : Z) : completion WebglLine :=
  let this := WebglBaseLine in
  match Float32Array_new engine_limit (2 * numPoints) with
  | Normal a =>
      Normal {| scaleX := scaleX this; scaleY := scaleY this;
                offsetX := offsetX this; offsetY := offsetY this;
                loop := loop this; _vbuffer := _vbuffer this;
                _coord := _coord this; visible := visible this;
                intensity := intensity this; xy := a;
                numPoints := numPoints; color := c;
                webglNumPoints := numPoints |}
  | Throw e => Throw e
  end.

Definition setX (index : Z) (x : value) : M WebglLine unit :=
  modify (fun this => set_xy (Float32Array_set (xy this) (index * 2) x) this).

Definition setY (index : Z) (y : value) : M WebglLine unit :=
  modify (fun this => set_xy (Float32Array_set (xy this) (index * 2 + 1) y) this).

Definition getX (index : Z) : M WebglLine value :=
  gets (fun this => Float32Array_get (xy this) (index * 2)).

Definition getY (index : Z) : M WebglLine value :=
  gets (fun this => Float32Array_get (xy this) (index * 2 + 1)).

Definition lineSpaceX (start stepSize : float) : M WebglLine unit :=
  n <- gets numPoints ;;
  for_upto n (fun i => setX i (number (start + stepSize * Z2float i)%float)).

Definition constY (c : float) : M WebglLine unit :=
  n <- gets numPoints ;;
  for_upto n (fun i => setY i (number c)).

Definition shiftAdd (data : list float) : M WebglLine unit :=
  let shiftSize := Z.of_nat (length data) in
  n <- gets numPoints ;;
  for_upto (n - shiftSize)
    (fun i => y <- getY (i + shiftSize) ;; setY i y) ;;
  n <- gets numPoints ;;
  for_upto shiftSize
    (fun i => setY (i + n - shiftSize) (Array_get data i)).

End WebglLine.

(** ** The drawing backend *)

Module GL.

Inductive enum : Type :=
| ARRAY_BUFFER | STREAM_DRAW | LINE_LOOP | LINE_STRIP | FLOAT.

(** The calls the plot makes on its rendering context. *)
Inductive call : Type :=
| useProgram (program : glvalue)
| getUniformLocation (program : glvalue) (name : string)
| uniformMatrix2fv (location : glvalue) (transpose : bool) (v : Float32Array)
| uniform2fv (location : glvalue) (v : Float32Array)
| uniform4fv (location : glvalue) (v : list float)
| bufferData (target : enum) (data : Float32Array) (usage : enum)
| drawArrays (mode : enum) (first count : Z)
| createBuffer
| bindBuffer (target : enum) (buffer : glvalue)
| getAttribLocation (program : glvalue) (name : string)
| vertexAttribPointer (index : glvalue) (size : Z) (type : enum)
    (normalized : bool) (stride offset : Z)
| enableVertexAttribArray (index : glvalue).

(** The rendering context, as far as the plot can tell: the calls made
    on it so far, oldest first, and the number of buffers created. *)
Record context : Type := mkContext { calls : list call; buffers : nat }.

Definition log (c : call) (ctx : context) : context :=
  {| calls := calls ctx ++ [c]; buffers := buffers ctx |}.

End GL.

(** ** WebGLPlot *)

(** A reference to a line object. *)
Definition ref : Type := nat.

Record WebGLPlot : Type := mkWebGLPlot {
  debug : bool;
  webgl : GL.context;
  _lines : list ref;
  gScaleX : float;
  gScaleY : float;
  gXYratio : float;
  gOffsetX : float;
  gOffsetY : float;
  progThinLine : glvalue
}.

Definition set_webgl (ctx : GL.context) (this : WebGLPlot) : WebGLPlot :=
  {| debug := debug this; webgl := ctx; _lines := _lines this;
     gScaleX := gScaleX this; gScaleY := gScaleY this;
     gXYratio := gXYratio this;
     gOffsetX := gOffsetX this; gOffsetY := gOffsetY this;
     progThinLine := progThinLine this |}.

Definition set_lines (l : list ref) (this : WebGLPlot) : WebGLPlot :=
  {| debug := debug this; webgl := webgl this; _lines := l;
     gScaleX := gScaleX this; gScaleY := gScaleY this;
     gXYratio := gXYratio this;
     gOffsetX := gOffsetX this; gOffsetY := gOffsetY this;
     progThinLine := progThinLine this |}.

(** The program state a plot method runs in: the line objects, by
    reference (the plot and its caller share them), and the plot. *)
Record world : Type := mkWorld { heap : ref -> WebglLine; plot : WebGLPlot }.

Definition set_plot (p : WebGLPlot) (w : world) : world :=
  {| heap := heap w; plot := p |}.

Definition store (l : ref) (line : WebglLine) (w : world) : world :=
  {| heap := fun l' => if Nat.eqb l' l then line else heap w l';
     plot := plot w |}.

Module WebGLPlot.

(** A call on [this.webgl] that returns nothing. *)
Definition gl (c : GL.call) : M world unit :=
  modify (fun w => set_plot (set_webgl (GL.log c (webgl (plot w))) (plot w)) w).

Definition getUniformLocation (program : glvalue) (name : string) : M world glvalue :=
  gl (GL.getUniformLocation program name) ;;
  ret (WebGLUniformLocation program name).

Definition getAttribLocation (program : glvalue) (name : string) : M world glvalue :=
  gl (GL.getAttribLocation program name) ;;
  ret (AttribLocation program name).

Definition createBuffer : M world glvalue :=
  id <- gets (fun w => GL.buffers (webgl (plot w))) ;;
  modify (fun w =>
    set_plot (set_webgl {| GL.calls := GL.calls (webgl (plot w)) ++ [GL.createBuffer];
                           GL.buffers := Datatypes.S id |} (plot w)) w) ;;
  ret (WebGLBuffer id).

(** The getter [lines]. *)
Definition lines : M world (list ref) := gets (fun w => _lines (plot w)).

Definition update : M world unit :=
  ls <- lines ;;
  forEach ls (fun l =>
    line <- gets (fun w => heap w l) ;;
    if visible line then
      this <- gets plot ;;
      gl (GL.useProgram (progThinLine this)) ;;
      uscale <- getUniformLocation (progThinLine this) "uscale" ;;
      gl (GL.uniformMatrix2fv uscale false
            (Float32Array_of
               [ (scaleX line * gScaleX this)%float; 0%float; 0%float;
                 (scaleY line * gScaleY this * gXYratio this)%float ])) ;;
      uoffset <- getUniformLocation (progThinLine this) "uoffset" ;;
      gl (GL.uniform2fv uoffset
            (Float32Array_of
               [ (offsetX line + gOffsetX this)%float;
                 (offsetY line + gOffsetY this)%float ])) ;;
      uColor <- getUniformLocation (progThinLine this) "uColor" ;;
      gl (GL.uniform4fv uColor
            [ r (color line); g (color line); b (color line); a (color line) ]) ;;
      gl (GL.bufferData GL.ARRAY_BUFFER (xy line) GL.STREAM_DRAW) ;;
      gl (GL.drawArrays (if loop line then GL.LINE_LOOP else GL.LINE_STRIP)
            0 (webglNumPoints line))
    else ret tt).

Definition addLine (l : ref) : M world unit :=
  vbuffer <- createBuffer ;;
  modify (fun w => store l (set_vbuffer vbuffer (heap w l)) w) ;;
  gl (GL.bindBuffer GL.ARRAY_BUFFER vbuffer) ;;
  line <- gets (fun w => heap w l) ;;
  gl (GL.bufferData GL.ARRAY_BUFFER (xy line) GL.STREAM_DRAW) ;;
  gl (GL.bindBuffer GL.ARRAY_BUFFER vbuffer) ;;
  this <- gets plot ;;
  coord <- getAttribLocation (progThinLine this) "coordinates" ;;
  modify (fun w => store l (set_coord coord (heap w l)) w) ;;
  gl (GL.vertexAttribPointer coord 2 GL.FLOAT false 0 0) ;;
  gl (GL.enableVertexAttribArray coord) ;;
  modify (fun w => set_plot (set_lines (_lines (plot w) ++ [l]) (plot w)) w).

Definition popLine : M world unit :=
  modify (fun w => set_plot (set_lines (removelast (_lines (plot w))) (plot w)) w).

Definition removeAllLines : M world unit :=
  modify (fun w => set_plot (set_lines [] (plot w)) w).

End WebGLPlot.

(** ** Notions the properties are stated with *)

(** A line buffer of capacity [n]: [n] points over a buffer of [2 * n]
    numbers, which is how [WebglLine.new] builds it. *)
Definition capacity (this : WebglLine) (n : Z) : Prop :=
  numPoints this = n /\ Z.of_nat (length (xy this)) = 2 * n.

(** Every element of the array is a binary32 value, as the elements of a
    [Float32Array] are. *)
Definition Float32Array_ok (a : Float32Array) : Prop := Forall is_f32 a.

(** The attached lines that are visible, in attachment order. *)
Definition visible_lines (w : world) : list WebglLine :=
  List.filter visible (map (heap w) (_lines (plot w))).

(** The calls [update] makes for one visible line; the uniforms are
    written out, element by element. *)
Definition line_calls (this : WebGLPlot) (line : WebglLine) : list GL.call :=
  let uscale := WebGLUniformLocation (progThinLine this) "uscale" in
  let uoffset := WebGLUniformLocation (progThinLine this) "uoffset" in
  let uColor := WebGLUniformLocation (progThinLine this) "uColor" in
  [ GL.useProgram (progThinLine this);
    GL.getUniformLocation (progThinLine this) "uscale";
    GL.uniformMatrix2fv uscale false
      [ fround (scaleX line * gScaleX this); 0%float; 0%float;
        fround (scaleY line * gScaleY this * gXYratio this) ];
    GL.getUniformLocation (progThinLine this) "uoffset";
    GL.uniform2fv uoffset
      [ fround (offsetX line + gOffsetX this);
        fround (offsetY line + gOffsetY this) ];
    GL.getUniformLocation (progThinLine this) "uColor";
    GL.uniform4fv uColor
      [ r (color line); g (color line); b (color line); a (color line) ];
    GL.bufferData GL.ARRAY_BUFFER (xy line) GL.STREAM_DRAW;
    GL.drawArrays (if loop line then GL.LINE_LOOP else GL.LINE_STRIP)
      0 (webglNumPoints line) ].

(** The world after the calls [cs] have been made on the context. *)
Definition emit (cs : list GL.call) (w : world) : world :=
  set_plot
    (set_webgl {| GL.calls := GL.calls (webgl (plot w)) ++ cs;
                  GL.buffers := GL.buffers (webgl (plot w)) |} (plot w)) w.

(** What a draw call draws: the uniforms and the buffer contents current
    when it is issued, its topology and its vertex count. *)
Record frame : Type := mkFrame {
  f_scale : Float32Array;
  f_offset : Float32Array;
  f_color : list float;
  f_data : Float32Array;
  f_mode : GL.enum;
  f_count : Z
}.

Definition uniform_name (location : glvalue) : string :=
  match location with
  | WebGLUniformLocation _ name => name
  | _ => EmptyString
  end.

(** The frames a sequence of calls draws, starting from the uniforms and
    buffer contents [st] (the mode and count of [st] are not used). *)
Fixpoint frames (st : frame) (cs : list GL.call) : list frame :=
  match cs with
  | [] => []
  | GL.uniformMatrix2fv location _ v :: cs' =>
      if String.eqb (uniform_name location) "uscale"
      then frames (mkFrame v (f_offset st) (f_color st) (f_data st) (f_mode st) (f_count st)) cs'
      else frames st cs'
  | GL.uniform2fv location v :: cs' =>
      if String.eqb (uniform_name location) "uoffset"
      then frames (mkFrame (f_scale st) v (f_color st) (f_data st) (f_mode st) (f_count st)) cs'
      else frames st cs'
  | GL.uniform4fv location v :: cs' =>
      if String.eqb (uniform_name location) "uColor"
      then frames (mkFrame (f_scale st) (f_offset st) v (f_data st) (f_mode st) (f_count st)) cs'
      else frames st cs'
  | GL.bufferData _ data _ :: cs' =>
      frames (mkFrame (f_scale st) (f_offset st) (f_color st) data (f_mode st) (f_count st)) cs'
  | GL.drawArrays mode _ count :: cs' =>
      mkFrame (f_scale st) (f_offset st) (f_color st) (f_data st) mode count
      :: frames st cs'
  | _ :: cs' => frames st cs'
  end.

(** The frame [update] is to draw for [line]: the scale matrix holds the
    line's scale times the global scale (times the XY ratio on the y
    axis), the offset the line's offset plus the global offset, each
    rounded to binary32. *)
Definition line_frame (this : WebGLPlot) (line : WebglLine) : frame :=
  {| f_scale :=
       [ fround (scaleX line * gScaleX this); 0%float; 0%float;
         fround (scaleY line * gScaleY this * gXYratio this) ];
     f_offset :=
       [ fround (offsetX line + gOffsetX this);
         fround (offsetY line + gOffsetY this) ];
     f_color := [ r (color line); g (color line); b (color line); a (color line) ];
     f_data := xy line;
     f_mode := if loop line then GL.LINE_LOOP else GL.LINE_STRIP;
     f_count := webglNumPoints line |}.

Definition is_drawArrays (c : GL.call) : bool :=
  match c with GL.drawArrays _ _ _ => true | _ => false end.

Definition is_bufferData (c : GL.call) : bool :=
  match c with GL.bufferData _ _ _ => true | _ => false end.

(** ** Sample values *)

Definition black : ColorRGBA := mkColorRGBA 0 0 0 1.

(** One tenth as a JavaScript number: not a binary32 value. *)
Definition tenth : float := 0x1.999999999999ap-4%float.

(** [new WebglLine(black, 1)] and [new WebglLine(black, 4)]. *)
Definition line1 : WebglLine :=
  {| scaleX := 1; scaleY := 1; offsetX := 0; offsetY := 0;
     loop := false; _vbuffer := GLnumber 0; _coord := GLnumber 0;
     visible := true; intensity := 1; xy := [0; 0]%float;
     numPoints := 1; color := black; webglNumPoints := 1 |}.

Definition line4 : WebglLine :=
  {| scaleX := 1; scaleY := 1; offsetX := 0; offsetY := 0;
     loop := false; _vbuffer := GLnumber 0; _coord := GLnumber 0;
     visible := true; intensity := 1; xy := [0; 0; 0; 0; 0; 0; 0; 0]%float;
     numPoints := 4; color := black; webglNumPoints := 4 |}.

(** A world with [line4] everywhere except at reference 1, which holds a
    hidden closed line. *)
Definition world0 : world :=
  {| heap := fun l =>
       if Nat.eqb l 1 then
         {| scaleX := 2; scaleY := 1; offsetX := 0; offsetY := 0;
            loop := true; _vbuffer := GLnumber 0; _coord := GLnumber 0;
            visible := false; intensity := 1; xy := [0; 0]%float;
            numPoints := 1; color := black; webglNumPoints := 1 |}
       else line4;
     plot := {| debug := false; webgl := GL.mkContext [] 0; _lines := [0; 1; 0]%nat;
                gScaleX := 1; gScaleY := 1; gXYratio := 1;
                gOffsetX := 0; gOffsetY := 0; progThinLine := WebGLProgram 0 |} |}.

(** A visible line of one point whose x scale is one tenth, and a plot
    with unit global scale that has it attached. *)
Definition line_tenth : WebglLine :=
  {| scaleX := tenth; scaleY := 1; offsetX := 0; offsetY := 0;
     loop := false; _vbuffer := GLnumber 0; _coord := GLnumber 0;
     visible := true; intensity := 1; xy := [0; 0]%float;
     numPoints := 1; color := black; webglNumPoints := 1 |}.

Definition world_tenth : world :=
  {| heap := fun _ => line_tenth;
     plot := {| debug := false; webgl := GL.mkContext [] 0; _lines := [0%nat];
                gScaleX := 1; gScaleY := 1; gXYratio := 1;
                gOffsetX := 0; gOffsetY := 0; progThinLine := WebGLProgram 0 |} |}.

(** Uniforms and buffer contents before anything is set. *)
Definition blank_frame : frame :=
  {| f_scale := []; f_offset := []; f_color := []; f_data := [];
     f_mode := GL.LINE_STRIP; f_count := 0 |}.

(** [world0] with the hidden line attached twice and nothing else. *)
Definition world1 : world := set_plot (set_lines [1; 1]%nat (plot world0)) world0.

(** ** The microphone page *)

(** [Math.max] over numbers, from the running maximum [highest]: [NaN] as
    soon as an argument is [NaN]; [+0] counts as larger than [-0]. *)
Fixpoint Math_max_from (highest : float) (args : list float) : float :=
  match args with
  | [] => highest
  | x :: rest =>
      if is_nan x then nan
      else if (is_zero x && negb (get_sign x)) && (is_zero highest && get_sign highest)
      then Math_max_from zero rest
      else if ltb highest x then Math_max_from x rest
      else Math_max_from highest rest
  end.

(** [Math.max(...args)]: the arguments are converted to numbers; the
    maximum of no argument is [-Infinity]. *)
Definition Math_max (args : list value) : float :=
  Math_max_from neg_infinity (map ToNumber args).

(** [a[i]] for a [Uint8Array] [a], held as its byte values. *)
Definition Uint8Array_get (a : list Z) (i : Z) : value :=
  if 0 <=? i then
    match a !! Z.to_nat i with
    | Some byte => number (Z2float byte)
    | None => undefined
    end
  else undefined.

(** The globals the page's [update] works on: the two lines and the
    window [maxA] of recent peaks, whose empty slots read as
    [undefined]. *)
Record page : Type := mkPage {
  lineTime : WebglLine;
  lineFreq : WebglLine;
  maxA : list value
}.

Definition set_lineTime (line : WebglLine) (p : page) : page :=
  {| lineTime := line; lineFreq := lineFreq p; maxA := maxA p |}.

Definition set_lineFreq (line : WebglLine) (p : page) : page :=
  {| lineTime := lineTime p; lineFreq := line; maxA := maxA p |}.

Definition set_maxA (window : list value) (p : page) : page :=
  {| lineTime := lineTime p; lineFreq := lineFreq p; maxA := window |}.

(** A method call on an object held in a field of the state. *)
Definition zoom {S T A} (get : S -> T) (set : T -> S -> S) (m : M T A) : M S A :=
  fun s => let (res, t) := m (get s) in (res, set t s).

(** The page once the script has been loaded: [maxA] is as created,
    [new Array(60 * 2)], and the lines are those, [lt] and [lf], the
    first [init()] has made.  [init()] never assigns [maxA]: when it
    runs again, on a resize, it replaces the lines and the window stays
    what the calls of [update()] so far have left. *)
Definition page_loaded (lt lf : WebglLine) : page :=
  {| lineTime := lt; lineFreq := lf; maxA := replicate 120 undefined |}.

Module Microphone.

Section Update.

(** [Math.log10]. *)
Variable log10 : float -> float.

(** The page's [update()], for the bytes [dataArray] and the samples
    [buffer] the analyser hands over. *)
Definition update (dataArray : list Z) (buffer : Float32Array) : M page unit :=
  let maxF := Math_max (map (fun byte => number (Z2float byte)) dataArray) in
  for_upto (Z.of_nat (length dataArray))
    (fun i =>
       zoom lineFreq set_lineFreq
         (WebglLine.setY i (number (ToNumber (Uint8Array_get dataArray i) / maxF)%float)) ;;
       zoom lineFreq set_lineFreq
         (WebglLine.setX i (number (log10 (Z2float i) / 2)%float))) ;;
  modify (fun p => set_maxA (tail (maxA p)) p) ;;
  modify (fun p => set_maxA (maxA p ++ [number (Math_max (map number buffer))]) p) ;;
  maxAcurrent <- gets (fun p => Math_max (maxA p)) ;;
  for_upto (Z.of_nat (length buffer))
    (fun i =>
       zoom lineTime set_lineTime
         (WebglLine.setY i (number (ToNumber (Array_get buffer i) / maxAcurrent)%float))).

(** [update()] once per frame, for the analyser's data of successive
    frames. *)
Definition updates (frames : list (list Z * Float32Array)) : M page unit :=
  forEach frames (fun frame => update (fst frame) (snd frame)).

End Update.

End Microphone.

(** The page just loaded, with two lines of capacity 4. *)
Definition page0 : page := page_loaded line4 line4.

(** The peak [update] records for a frame. *)
Definition peak (frame : list Z * Float32Array) : value :=
  number (Math_max (map number (snd frame))).

(* ================================================================== *)
(** * Part II: properties                                               *)
(* ================================================================== *)

(** ** The embedding at work *)

Example fround_tenth : fround tenth = 0x1.99999ap-4%float.
Proof. reflexivity. Qed.

Example fround_ties_to_even : fround 16777217 = 16777216%float.
Proof. reflexivity. Qed.

Example fround_overflows : fround 0x1p128 = infinity.
Proof. reflexivity. Qed.

Example new_line1 : WebglLine.new (2 ^ 30) black 1 = Normal line1.
Proof. reflexivity. Qed.

Example new_line4 : WebglLine.new (2 ^ 30) black 4 = Normal line4.
Proof. reflexivity. Qed.

Example new_negative : WebglLine.new (2 ^ 30) black (-1) = Throw RangeError.
Proof. reflexivity. Qed.

Example new_too_long :
  WebglLine.new (2 ^ 30) black (2 ^ 31) = Throw RangeError
  /\ WebglLine.new (2 ^ 60) black (2 ^ 53) = Throw RangeError.
Proof. split; reflexivity. Qed.

Example lineSpaceX_line4 :
  WebglLine.lineSpaceX (-1) 0.5 line4
  = (Normal tt, set_xy [-1; 0; -0.5; 0; 0; 0; 0.5; 0]%float line4).
Proof. reflexivity. Qed.

(** Capacity 4, y = [0, 0, 0, 0]: after [shiftAdd([9, 8])], y = [0, 0, 9,
    8]; after [shiftAdd([1, 2, 3, 4])], y = [1, 2, 3, 4]; and
    [shiftAdd([1, 2, 3, 4, 5])] then completes normally with y = [2, 3,
    4, 5]. *)
Example shiftAdd_line4 :
  WebglLine.shiftAdd [9; 8]%float line4
  = (Normal tt, set_xy [0; 0; 0; 0; 0; 9; 0; 8]%float line4)
  /\ (WebglLine.shiftAdd [9; 8]%float ;; WebglLine.shiftAdd [1; 2; 3; 4]%float) line4
     = (Normal tt, set_xy [0; 1; 0; 2; 0; 3; 0; 4]%float line4)
  /\ (WebglLine.shiftAdd [9; 8]%float ;; WebglLine.shiftAdd [1; 2; 3; 4]%float ;;
      WebglLine.shiftAdd [1; 2; 3; 4; 5]%float) line4
     = (Normal tt, set_xy [0; 2; 0; 3; 0; 4; 0; 5]%float line4).
Proof. repeat split. Qed.

(** [world0] has [line4] attached twice around a hidden line: [update]
    draws [line4] twice. *)
Example update_world0 :
  List.filter is_drawArrays
    (GL.calls (webgl (plot (snd (WebGLPlot.update world0)))))
  = [GL.drawArrays GL.LINE_STRIP 0 4; GL.drawArrays GL.LINE_STRIP 0 4].
Proof. reflexivity. Qed.

(** ** The monad *)

Lemma bind_Normal {S A B} (m : M S A) (k : A -> M S B) s a s' :
  m s = (Normal a, s') -> bind m k s = k a s'.
Proof. intros H. unfold bind. rewrite H. reflexivity. Qed.

(** Step over a read of the state at the head of the computation. *)
Ltac run_gets :=
  match goal with
  | |- context [bind (gets ?f) ?k ?s] =>
      rewrite (bind_Normal (gets f) k s (f s) s eq_refl)
  end.

(** The loop rule: an invariant that each iteration, completing
    normally, carries from [i] to [i + 1] holds when the loop is over,
    and the loop completes normally. *)
Lemma for_loop_inv {S} (Inv : Z -> S -> Prop) (body : Z -> M S unit)
    (iters : nat) (i0 : Z) (s0 : S) :
  Inv i0 s0 ->
  (forall i s, i0 <= i < i0 + Z.of_nat iters -> Inv i s ->
     exists s', body i s = (Normal tt, s') /\ Inv (i + 1) s') ->
  exists s', for_loop i0 iters body s0 = (Normal tt, s')
             /\ Inv (i0 + Z.of_nat iters) s'.
Proof.
  revert i0 s0. induction iters as [|k IH]; intros i0 s0 H0 Hstep.
  - exists s0. split; [reflexivity|]. now replace (i0 + Z.of_nat 0) with i0 by lia.
  - destruct (Hstep i0 s0) as (s1 & Hb & H1); [lia|assumption|].
    destruct (IH (i0 + 1) s1 H1) as (s' & Hrun & Hinv).
    { intros i s Hi. apply Hstep. lia. }
    exists s'. split.
    + simpl. rewrite (bind_Normal _ _ _ _ _ Hb). exact Hrun.
    + now replace (i0 + Z.of_nat (Datatypes.S k)) with (i0 + 1 + Z.of_nat k) by lia.
Qed.

(** ** Float32Array *)

Section Float32Array_facts.

Variable a : Float32Array.

Lemma Float32Array_set_length key v :
  length (Float32Array_set a key v) = length a.
Proof.
  unfold Float32Array_set. destruct (0 <=? key); [apply length_insert|reflexivity].
Qed.

Lemma Float32Array_get_set_eq key v :
  0 <= key < Z.of_nat (length a) ->
  Float32Array_get (Float32Array_set a key v) key = number (fround (ToNumber v)).
Proof.
  intros H. unfold Float32Array_get, Float32Array_set.
  destruct (Z.leb_spec 0 key); [|lia].
  rewrite list_lookup_insert_eq by lia. reflexivity.
Qed.

Lemma Float32Array_get_set_ne key key' v :
  key <> key' ->
  Float32Array_get (Float32Array_set a key v) key' = Float32Array_get a key'.
Proof.
  intros H. unfold Float32Array_get, Float32Array_set.
  destruct (Z.leb_spec 0 key), (Z.leb_spec 0 key'); try reflexivity.
  rewrite list_lookup_insert_ne; [reflexivity|].
  intros Heq. apply H. apply Z2Nat.inj; assumption.
Qed.

Lemma Float32Array_set_outside key v :
  ~ (0 <= key < Z.of_nat (length a)) -> Float32Array_set a key v = a.
Proof.
  intros H. unfold Float32Array_set.
  destruct (Z.leb_spec 0 key); [|reflexivity].
  apply list_insert_ge. lia.
Qed.

Lemma Float32Array_get_outside key :
  ~ (0 <= key < Z.of_nat (length a)) -> Float32Array_get a key = undefined.
Proof.
  intros H. unfold Float32Array_get.
  destruct (Z.leb_spec 0 key); [|reflexivity].
  rewrite (proj2 (lookup_ge_None a (Z.to_nat key))); [reflexivity|lia].
Qed.

Lemma Float32Array_get_inside key :
  0 <= key < Z.of_nat (length a) ->
  exists x, Float32Array_get a key = number x /\ a !! Z.to_nat key = Some x.
Proof.
  intros H. unfold Float32Array_get.
  destruct (Z.leb_spec 0 key); [|lia].
  destruct (lookup_lt_is_Some_2 a (Z.to_nat key)) as [x Hx]; [lia|].
  exists x. rewrite Hx. split; reflexivity.
Qed.

(** A number read from an array of binary32 values is one. *)
Lemma Float32Array_get_f32 key x :
  Float32Array_ok a -> Float32Array_get a key = number x -> is_f32 x.
Proof.
  intros Hok. unfold Float32Array_get.
  destruct (0 <=? key); [|discriminate].
  destruct (a !! Z.to_nat key) as [y|] eqn:Hy; [|discriminate].
  intros [= <-]. apply (proj1 (Forall_lookup _ a) Hok _ _ Hy).
Qed.

End Float32Array_facts.

(** Two arrays that read alike at every key are the same array. *)
Lemma Float32Array_ext (a1 a2 : Float32Array) :
  (forall key, Float32Array_get a1 key = Float32Array_get a2 key) -> a1 = a2.
Proof.
  intros H. apply list_eq. intros i. specialize (H (Z.of_nat i)).
  unfold Float32Array_get in H.
  destruct (Z.leb_spec 0 (Z.of_nat i)); [|lia].
  rewrite Nat2Z.id in H.
  destruct (a1 !! i), (a2 !! i); congruence.
Qed.

Lemma Float32Array_new_ok engine_limit n a0 :
  Float32Array_new engine_limit n = Normal a0 ->
  Z.of_nat (length a0) = n /\ Float32Array_ok a0.
Proof.
  unfold Float32Array_new. destruct (Z.ltb_spec n 0); [discriminate|].
  destruct (_ <? n); [discriminate|]. cbn [orb].
  intros [= <-]. rewrite length_replicate. split; [lia|].
  apply Forall_replicate. reflexivity.
Qed.

(** ** The loops of the line buffer *)

Lemma set_xy_set_xy a1 a2 (this : WebglLine) :
  set_xy a1 (set_xy a2 this) = set_xy a1 this.
Proof. reflexivity. Qed.

Lemma set_xy_same (this : WebglLine) : set_xy (xy this) this = this.
Proof. destruct this; reflexivity. Qed.

(** A loop whose iteration [i] stores [v i] at key [slot i], for distinct
    keys: when it is over each of these keys holds its value, rounded,
    and every other key holds what it held. *)
Lemma store_loop (slot : Z -> Z) (v : Z -> value) (body : Z -> M WebglLine unit)
    (this : WebglLine) (iters : nat) :
  (forall i j, slot i = slot j -> i = j) ->
  (forall i s, body i s = (Normal tt, set_xy (Float32Array_set (xy s) (slot i) (v i)) s)) ->
  exists a' : Float32Array,
    for_loop 0 iters body this = (Normal tt, set_xy a' this)
    /\ length a' = length (xy this)
    /\ (forall i, 0 <= i < Z.of_nat iters ->
          0 <= slot i < Z.of_nat (length (xy this)) ->
          Float32Array_get a' (slot i) = number (fround (ToNumber (v i))))
    /\ (forall key, (forall i, 0 <= i < Z.of_nat iters -> key <> slot i) ->
          Float32Array_get a' key = Float32Array_get (xy this) key).
Proof.
  intros Hinj Hbody.
  pose (Inv := fun (n : Z) (s : WebglLine) =>
    exists a' : Float32Array, s = set_xy a' this
      /\ length a' = length (xy this)
      /\ (forall i, 0 <= i < n -> 0 <= slot i < Z.of_nat (length (xy this)) ->
            Float32Array_get a' (slot i) = number (fround (ToNumber (v i))))
      /\ (forall key, (forall i, 0 <= i < n -> key <> slot i) ->
            Float32Array_get a' key = Float32Array_get (xy this) key)).
  destruct (for_loop_inv Inv body iters 0 this) as (s' & Hrun & a' & -> & Hlen & Hw & Hk).
  - exists (xy this). rewrite set_xy_same.
    split; [reflexivity|]. split; [reflexivity|]. split; [intros; lia|reflexivity].
  - intros i s Hi (a1 & -> & Hlen & Hw & Hk).
    eexists. split; [apply Hbody|].
    exists (Float32Array_set a1 (slot i) (v i)). simpl.
    split; [reflexivity|]. split; [|split].
    + rewrite Float32Array_set_length. exact Hlen.
    + intros j Hj Hin. destruct (Z.eq_dec j i) as [->|Hne].
      * apply Float32Array_get_set_eq. rewrite Hlen. exact Hin.
      * rewrite Float32Array_get_set_ne by (intros E; apply Hne, Hinj; congruence).
        apply Hw; [lia|exact Hin].
    + intros key Hkey.
      rewrite Float32Array_get_set_ne by (intros E; apply (Hkey i); [lia|congruence]).
      apply Hk. intros j Hj. apply Hkey. lia.
  - exists a'. simpl in *. auto.
Qed.

(** The first loop of [shiftAdd]: iteration [i] copies the y value of
    point [i + k] to point [i].  With [0 <= k] the value it reads has not
    been overwritten yet. *)
Lemma shift_loop (k : Z) (this : WebglLine) (iters : nat) :
  0 <= k ->
  exists a' : Float32Array,
    for_loop 0 iters
      (fun i => y <- WebglLine.getY (i + k) ;; WebglLine.setY i y) this
    = (Normal tt, set_xy a' this)
    /\ length a' = length (xy this)
    /\ (forall i, 0 <= i < Z.of_nat iters ->
          0 <= i * 2 + 1 < Z.of_nat (length (xy this)) ->
          Float32Array_get a' (i * 2 + 1)
          = number (fround (ToNumber (Float32Array_get (xy this) ((i + k) * 2 + 1)))))
    /\ (forall key, (forall i, 0 <= i < Z.of_nat iters -> key <> i * 2 + 1) ->
          Float32Array_get a' key = Float32Array_get (xy this) key).
Proof.
  intros Hk0.
  pose (Inv := fun (n : Z) (s : WebglLine) =>
    exists a' : Float32Array, s = set_xy a' this
      /\ length a' = length (xy this)
      /\ (forall i, 0 <= i < n -> 0 <= i * 2 + 1 < Z.of_nat (length (xy this)) ->
            Float32Array_get a' (i * 2 + 1)
            = number (fround (ToNumber (Float32Array_get (xy this) ((i + k) * 2 + 1)))))
      /\ (forall key, (forall i, 0 <= i < n -> key <> i * 2 + 1) ->
            Float32Array_get a' key = Float32Array_get (xy this) key)).
  destruct (for_loop_inv Inv
              (fun i => y <- WebglLine.getY (i + k) ;; WebglLine.setY i y)
              iters 0 this) as (s' & Hrun & a' & -> & Hlen & Hw & Hk).
  - exists (xy this). rewrite set_xy_same.
    split; [reflexivity|]. split; [reflexivity|]. split; [intros; lia|reflexivity].
  - intros i s Hi (a1 & -> & Hlen & Hw & Hk).
    eexists. split; [reflexivity|].
    exists (Float32Array_set a1 (i * 2 + 1) (Float32Array_get a1 ((i + k) * 2 + 1))).
    simpl. split; [reflexivity|]. split; [|split].
    + rewrite Float32Array_set_length. exact Hlen.
    + intros j Hj Hin. destruct (Z.eq_dec j i) as [->|Hne].
      * rewrite Float32Array_get_set_eq by (rewrite Hlen; exact Hin).
        rewrite (Hk ((i + k) * 2 + 1)); [reflexivity|]. intros j' Hj'. lia.
      * rewrite Float32Array_get_set_ne by lia. apply Hw; [lia|exact Hin].
    + intros key Hkey.
      rewrite Float32Array_get_set_ne by (intros E; apply (Hkey i); [lia|congruence]).
      apply Hk. intros j Hj. apply Hkey. lia.
  - exists a'. simpl in *. auto.
Qed.

(** ** The methods of the line buffer *)

Section WebglLine_facts.

Variable this : WebglLine.

Lemma setX_run index x :
  WebglLine.setX index x this
  = (Normal tt, set_xy (Float32Array_set (xy this) (index * 2) x) this).
Proof. reflexivity. Qed.

Lemma setY_run index y :
  WebglLine.setY index y this
  = (Normal tt, set_xy (Float32Array_set (xy this) (index * 2 + 1) y) this).
Proof. reflexivity. Qed.

Lemma getX_run index :
  WebglLine.getX index this = (Normal (Float32Array_get (xy this) (index * 2)), this).
Proof. reflexivity. Qed.

Lemma getY_run index :
  WebglLine.getY index this = (Normal (Float32Array_get (xy this) (index * 2 + 1)), this).
Proof. reflexivity. Qed.

(** [lineSpaceX] completes normally and changes the buffer only: the x
    slot of each point [i] below [numPoints] gets [start + stepSize * i]
    (rounded by the store), every other slot keeps its value. *)
Lemma lineSpaceX_run start stepSize :
  exists a' : Float32Array,
    WebglLine.lineSpaceX start stepSize this = (Normal tt, set_xy a' this)
    /\ length a' = length (xy this)
    /\ (forall i, 0 <= i < numPoints this ->
          0 <= i * 2 < Z.of_nat (length (xy this)) ->
          Float32Array_get a' (i * 2)
          = number (fround (start + stepSize * Z2float i)%float))
    /\ (forall key, (forall i, 0 <= i < numPoints this -> key <> i * 2) ->
          Float32Array_get a' key = Float32Array_get (xy this) key).
Proof.
  destruct (store_loop (fun i => i * 2)
              (fun i => number (start + stepSize * Z2float i)%float)
              (fun i => WebglLine.setX i (number (start + stepSize * Z2float i)%float))
              this (Z.to_nat (numPoints this)))
    as (a' & Hrun & Hlen & Hw & Hk).
  { intros i j. lia. }
  { intros i s. reflexivity. }
  exists a'. split; [exact Hrun|]. split; [exact Hlen|]. split.
  - intros i Hi Hin. apply (Hw i); [lia|exact Hin].
  - intros key Hkey. apply Hk. intros i Hi. apply Hkey. lia.
Qed.

Lemma constY_run c :
  exists a' : Float32Array,
    WebglLine.constY c this = (Normal tt, set_xy a' this)
    /\ length a' = length (xy this)
    /\ (forall i, 0 <= i < numPoints this ->
          0 <= i * 2 + 1 < Z.of_nat (length (xy this)) ->
          Float32Array_get a' (i * 2 + 1) = number (fround c))
    /\ (forall key, (forall i, 0 <= i < numPoints this -> key <> i * 2 + 1) ->
          Float32Array_get a' key = Float32Array_get (xy this) key).
Proof.
  destruct (store_loop (fun i => i * 2 + 1) (fun _ => number c)
              (fun i => WebglLine.setY i (number c))
              this (Z.to_nat (numPoints this)))
    as (a' & Hrun & Hlen & Hw & Hk).
  { intros i j. lia. }
  { intros i s. reflexivity. }
  exists a'. split; [exact Hrun|]. split; [exact Hlen|]. split.
  - intros i Hi Hin. apply (Hw i); [lia|exact Hin].
  - intros key Hkey. apply Hk. intros i Hi. apply Hkey. lia.
Qed.

(** [shiftAdd], whatever the length [k] of [data]: it completes
    normally and changes the buffer only; x slots keep their values;
    the y slot of a point [j] in range gets [data[j - (n - k)]] when
    [n - k <= j], and the former y value of point [j + k] otherwise;
    the values are rounded by the store. *)
Lemma shiftAdd_run (data : list float) :
  let n := numPoints this in
  let k := Z.of_nat (length data) in
  exists a' : Float32Array,
    WebglLine.shiftAdd data this = (Normal tt, set_xy a' this)
    /\ length a' = length (xy this)
    /\ (forall i, Float32Array_get a' (i * 2) = Float32Array_get (xy this) (i * 2))
    /\ (forall j, 0 <= j < n -> n - k <= j ->
          0 <= j * 2 + 1 < Z.of_nat (length (xy this)) ->
          Float32Array_get a' (j * 2 + 1)
          = number (fround (ToNumber (Array_get data (j - (n - k))))))
    /\ (forall j, 0 <= j < n - k ->
          0 <= j * 2 + 1 < Z.of_nat (length (xy this)) ->
          Float32Array_get a' (j * 2 + 1)
          = number (fround (ToNumber (Float32Array_get (xy this) ((j + k) * 2 + 1)))))
    /\ (forall j, ~ (0 <= j < n) ->
          Float32Array_get a' (j * 2 + 1) = Float32Array_get (xy this) (j * 2 + 1)).
Proof.
  intros n k.
  destruct (shift_loop k this (Z.to_nat (n - k))) as (a1 & Hrun1 & Hlen1 & Hw1 & Hk1);
    [lia|].
  destruct (store_loop (fun i => (i + n - k) * 2 + 1) (fun i => Array_get data i)
              (fun i => WebglLine.setY (i + n - k) (Array_get data i))
              (set_xy a1 this) (Z.to_nat k))
    as (a2 & Hrun2 & Hlen2 & Hw2 & Hk2).
  { intros i j. lia. }
  { intros i s. reflexivity. }
  simpl in Hrun2, Hlen2, Hw2, Hk2.
  exists a2. split.
  { unfold WebglLine.shiftAdd, for_upto.
    rewrite (bind_Normal (gets numPoints) _ this (numPoints this) this eq_refl).
    fold n k. rewrite (bind_Normal _ _ _ _ _ Hrun1).
    rewrite (bind_Normal (gets numPoints) _ (set_xy a1 this) n (set_xy a1 this) eq_refl).
    exact Hrun2. }
  split; [congruence|]. split; [|split; [|split]].
  - intros i. rewrite Hk2 by (intros; lia). apply Hk1. intros; lia.
  - intros j Hj Hge Hin.
    replace (j * 2 + 1) with ((j - (n - k) + n - k) * 2 + 1) by lia.
    apply (Hw2 (j - (n - k))); [lia|]. rewrite Hlen1. lia.
  - intros j Hj Hin.
    rewrite Hk2 by (intros; lia). apply Hw1; [lia|exact Hin].
  - intros j Hj.
    destruct (Z_lt_dec j 0) as [Hneg|Hpos].
    + rewrite !Float32Array_get_outside by lia. reflexivity.
    + rewrite Hk2 by (intros; lia). apply Hk1. intros; lia.
Qed.

End WebglLine_facts.

(** *** Binary32 contents *)

(** A store of a value that rounds to a binary32 value keeps the array
    one of binary32 values. *)
Lemma Float32Array_set_ok (a : Float32Array) (key : Z) (v : value) :
  Float32Array_ok a -> is_f32 (fround (ToNumber v)) ->
  Float32Array_ok (Float32Array_set a key v).
Proof.
  intros Ha Hv. unfold Float32Array_set.
  destruct (0 <=? key); [|exact Ha]. apply Forall_insert; assumption.
Qed.

(** [shiftAdd] with binary32 data, a [Float32Array] say, keeps the buffer
    one of binary32 values. *)
Lemma shiftAdd_keeps_ok (this : WebglLine) (data : list float) :
  Float32Array_ok (xy this) -> Forall is_f32 data ->
  exists this', WebglLine.shiftAdd data this = (Normal tt, this')
                /\ Float32Array_ok (xy this').
Proof.
  intros Hok Hdata.
  set (k := Z.of_nat (length data)).
  assert (Hval : forall (a : Float32Array) key,
            Float32Array_ok a -> is_f32 (fround (ToNumber (Float32Array_get a key)))).
  { intros a key Ha.
    destruct (Float32Array_get a key) as [|x] eqn:Hx; [reflexivity|].
    pose proof (Float32Array_get_f32 a key x Ha Hx) as Hf.
    simpl. unfold is_f32 in *. rewrite Hf. exact Hf. }
  assert (Hdat : forall i, is_f32 (fround (ToNumber (Array_get data i)))).
  { intros i. apply (Hval data i Hdata). }
  destruct (for_loop_inv (fun _ s => Float32Array_ok (xy s) /\ numPoints s = numPoints this)
              (fun i => y <- WebglLine.getY (i + k) ;; WebglLine.setY i y)
              (Z.to_nat (numPoints this - k)) 0 this) as (s1 & Hrun1 & Hok1 & Hn1).
  { split; [exact Hok|reflexivity]. }
  { intros i s _ [Hs Hn]. eexists. split; [reflexivity|]. simpl.
    split; [|exact Hn]. apply Float32Array_set_ok; [exact Hs|]. apply Hval, Hs. }
  destruct (for_loop_inv (fun _ s => Float32Array_ok (xy s))
              (fun i => WebglLine.setY (i + numPoints this - k) (Array_get data i))
              (Z.to_nat k) 0 s1) as (s2 & Hrun2 & Hok2).
  { exact Hok1. }
  { intros i s _ Hs. eexists. split; [reflexivity|]. simpl.
    apply Float32Array_set_ok; [exact Hs|]. apply Hdat. }
  exists s2. split; [|exact Hok2].
  unfold WebglLine.shiftAdd, for_upto. fold k.
  run_gets. rewrite (bind_Normal _ _ _ _ _ Hrun1).
  run_gets. rewrite Hn1. exact Hrun2.
Qed.

(** ** Point accessors *)

(** C3, as amended.  The point accessors never fail.  On a line buffer of
    capacity [n] and for any index: with [0 <= index < n], [getX] and
    [getY] return the number held for the point and [setX] and [setY]
    complete normally; with an index out of range, [getX] and [getY]
    return [undefined] and [setX] and [setY] complete normally and leave
    the line as it was. *)
Theorem accessors_never_fail (this : WebglLine) (n index : Z) (v : value) :
  capacity this n ->
  (0 <= index < n ->
     (exists x, xy this !! Z.to_nat (index * 2) = Some x
                /\ WebglLine.getX index this = (Normal (number x), this))
     /\ (exists y, xy this !! Z.to_nat (index * 2 + 1) = Some y
                   /\ WebglLine.getY index this = (Normal (number y), this))
     /\ (exists this', WebglLine.setX index v this = (Normal tt, this'))
     /\ (exists this', WebglLine.setY index v this = (Normal tt, this')))
  /\ (~ (0 <= index < n) ->
     WebglLine.getX index this = (Normal undefined, this)
     /\ WebglLine.getY index this = (Normal undefined, this)
     /\ WebglLine.setX index v this = (Normal tt, this)
     /\ WebglLine.setY index v this = (Normal tt, this)).
Proof.
  intros [Hn Hlen]. split.
  - intros Hi.
    destruct (Float32Array_get_inside (xy this) (index * 2)) as (x & Hx & Hlx); [lia|].
    destruct (Float32Array_get_inside (xy this) (index * 2 + 1)) as (y & Hy & Hly); [lia|].
    split; [exists x; rewrite getX_run, Hx; split; [exact Hlx|reflexivity]|].
    split; [exists y; rewrite getY_run, Hy; split; [exact Hly|reflexivity]|].
    split; eexists; reflexivity.
  - intros Hi.
    rewrite getX_run, getY_run, setX_run, setY_run.
    rewrite !Float32Array_get_outside, !Float32Array_set_outside by lia.
    rewrite set_xy_same. auto.
Qed.

Lemma accessors_never_fail_witness :
  capacity line4 4
  /\ (exists x, xy line4 !! Z.to_nat (3 * 2) = Some x
                /\ WebglLine.getX 3 line4 = (Normal (number x), line4))
  /\ WebglLine.getY 4 line4 = (Normal undefined, line4)
  /\ WebglLine.setX (-1) (number 1) line4 = (Normal tt, line4).
Proof.
  assert (Hc : capacity line4 4) by (split; reflexivity).
  split; [exact Hc|].
  split; [apply (accessors_never_fail line4 4 3 undefined Hc); lia|].
  split; [apply (accessors_never_fail line4 4 4 undefined Hc); lia|].
  apply (accessors_never_fail line4 4 (-1) (number 1) Hc); lia.
Defined.

(** C3, as stated, fails: on a line buffer of capacity 1, [getX(1)] does
    not fail with [IndexOutOfRange]; it returns [undefined]. *)
Lemma getX_out_of_range_returns :
  capacity line1 1
  /\ ~ (exists this', WebglLine.getX 1 line1 = (Throw IndexOutOfRange, this'))
  /\ WebglLine.getX 1 line1 = (Normal undefined, line1).
Proof.
  split; [split; reflexivity|]. split; [|reflexivity].
  intros (this' & H). discriminate H.
Qed.

(** C5.  On a line buffer of capacity [n] and for [0 <= i < n], [getX(i)]
    after [setX(i, v)] returns [v] rounded to the storage width
    ([fround v]), hence [v] itself when [v] is a binary32 value; the same
    holds of [setY] and [getY]. *)
Theorem set_then_get (this : WebglLine) (n i : Z) (v : float) :
  capacity this n -> 0 <= i < n ->
  (exists this',
     WebglLine.setX i (number v) this = (Normal tt, this')
     /\ WebglLine.getX i this' = (Normal (number (fround v)), this')
     /\ (is_f32 v -> WebglLine.getX i this' = (Normal (number v), this')))
  /\ (exists this',
     WebglLine.setY i (number v) this = (Normal tt, this')
     /\ WebglLine.getY i this' = (Normal (number (fround v)), this')
     /\ (is_f32 v -> WebglLine.getY i this' = (Normal (number v), this'))).
Proof.
  intros [Hn Hlen] Hi. split.
  - eexists. split; [apply setX_run|].
    assert (H : WebglLine.getX i (set_xy (Float32Array_set (xy this) (i * 2) (number v)) this)
                = (Normal (number (fround v)),
                   set_xy (Float32Array_set (xy this) (i * 2) (number v)) this)).
    { rewrite getX_run. simpl. rewrite Float32Array_get_set_eq by lia. reflexivity. }
    split; [exact H|]. intros Hv. rewrite H, Hv. reflexivity.
  - eexists. split; [apply setY_run|].
    assert (H : WebglLine.getY i (set_xy (Float32Array_set (xy this) (i * 2 + 1) (number v)) this)
                = (Normal (number (fround v)),
                   set_xy (Float32Array_set (xy this) (i * 2 + 1) (number v)) this)).
    { rewrite getY_run. simpl. rewrite Float32Array_get_set_eq by lia. reflexivity. }
    split; [exact H|]. intros Hv. rewrite H, Hv. reflexivity.
Qed.

Lemma set_then_get_witness :
  capacity line4 4 /\ 0 <= 2 < 4
  /\ fst (WebglLine.getX 2 (snd (WebglLine.setX 2 (number tenth) line4)))
     = Normal (number (fround tenth)).
Proof.
  assert (Hc : capacity line4 4) by (split; reflexivity).
  assert (Hi : 0 <= 2 < 4) by lia.
  split; [exact Hc|]. split; [exact Hi|].
  destruct (set_then_get line4 4 2 tenth Hc Hi) as [(this' & Hset & Hget & _) _].
  rewrite Hset. cbn [snd]. rewrite Hget. reflexivity.
Defined.

(** ** lineSpaceX *)

(** C6, as amended.  On a line buffer of capacity [n], [lineSpaceX(start,
    stepSize)] completes normally; afterwards [getX(i)] is [start +
    stepSize * i] rounded to the storage width, for every [0 <= i < n],
    and no y value has changed. *)
Theorem lineSpaceX_spec (this : WebglLine) (n : Z) (start stepSize : float) :
  capacity this n ->
  exists this',
    WebglLine.lineSpaceX start stepSize this = (Normal tt, this')
    /\ (forall i, 0 <= i < n ->
          fst (WebglLine.getX i this')
          = Normal (number (fround (start + stepSize * Z2float i)%float)))
    /\ (forall i, fst (WebglLine.getY i this') = fst (WebglLine.getY i this)).
Proof.
  intros [Hn Hlen].
  destruct (lineSpaceX_run this start stepSize) as (a' & Hrun & _ & Hw & Hk).
  exists (set_xy a' this). split; [exact Hrun|]. split.
  - intros i Hi. rewrite getX_run. simpl. rewrite Hw by lia. reflexivity.
  - intros i. rewrite !getY_run. simpl. rewrite Hk by (intros; lia). reflexivity.
Qed.

Lemma lineSpaceX_spec_witness :
  capacity line4 4
  /\ fst (WebglLine.getX 3 (snd (WebglLine.lineSpaceX (-1) 0.5 line4)))
     = Normal (number 0.5).
Proof.
  assert (Hc : capacity line4 4) by (split; reflexivity).
  split; [exact Hc|].
  destruct (lineSpaceX_spec line4 4 (-1) 0.5 Hc) as (this' & Hrun & Hx & _).
  rewrite Hrun. cbn [snd]. rewrite (Hx 3) by lia. reflexivity.
Defined.

(** C6, as stated, fails: on a line buffer of capacity 1,
    [lineSpaceX(0.1, 0)] leaves [getX(0)] at the binary32 value nearest to
    one tenth, which is not [0.1 + 0 * 0]. *)
Lemma lineSpaceX_rounds :
  capacity line1 1
  /\ ~ (exists this',
          WebglLine.lineSpaceX tenth 0 line1 = (Normal tt, this')
          /\ forall i, 0 <= i < 1 ->
               fst (WebglLine.getX i this')
               = Normal (number (tenth + 0 * Z2float i)%float)).
Proof.
  split; [split; reflexivity|].
  intros (this' & Hrun & Hx). specialize (Hx 0 ltac:(lia)).
  vm_compute in Hrun. injection Hrun as <-.
  vm_compute in Hx. discriminate Hx.
Qed.

(** ** shiftAdd *)

(** C1, as amended.  On a line buffer of capacity [n] whose buffer holds
    binary32 values, and for [data] of length [k <= n], [shiftAdd(data)]
    completes normally; afterwards the y value of point [i] is the former
    y value of point [i + k] for [0 <= i < n - k], and the y value of
    point [n - k + i] is [data[i]] rounded to the storage width for
    [0 <= i < k], which is [data[i]] itself when that is a binary32 value.
    In particular, with [k = n], [getY(i)] is [data[i]] rounded, for every
    point. *)
Theorem shiftAdd_spec (this : WebglLine) (data : list float) (n : Z) :
  let k := Z.of_nat (length data) in
  capacity this n ->
  Float32Array_ok (xy this) ->
  k <= n ->
  exists this',
    WebglLine.shiftAdd data this = (Normal tt, this')
    /\ (forall i, 0 <= i < n - k ->
          fst (WebglLine.getY i this') = fst (WebglLine.getY (i + k) this))
    /\ (forall i, 0 <= i < k ->
          fst (WebglLine.getY (n - k + i) this')
          = Normal (number (fround (ToNumber (Array_get data i)))))
    /\ (forall i x, 0 <= i < k -> Array_get data i = number x -> is_f32 x ->
          fst (WebglLine.getY (n - k + i) this') = Normal (number x))
    /\ (k = n -> forall i, 0 <= i < n ->
          fst (WebglLine.getY i this')
          = Normal (number (fround (ToNumber (Array_get data i))))).
Proof.
  intros k [Hn Hlen] Hok Hk.
  destruct (shiftAdd_run this data) as (a' & Hrun & _ & _ & Hnew & Hold & _).
  rewrite Hn in Hnew, Hold. fold k in Hnew, Hold.
  assert (Happ : forall i, 0 <= i < k ->
            fst (WebglLine.getY (n - k + i) (set_xy a' this))
            = Normal (number (fround (ToNumber (Array_get data i))))).
  { intros i Hi. rewrite getY_run. simpl. rewrite Hnew by lia.
    replace (n - k + i - (n - k)) with i by lia. reflexivity. }
  exists (set_xy a' this). split; [exact Hrun|]. split; [|split; [|split]].
  - intros i Hi. rewrite !getY_run. simpl. rewrite Hold by lia.
    destruct (Float32Array_get_inside (xy this) ((i + k) * 2 + 1)) as (y & Hy & _); [lia|].
    rewrite Hy. simpl. rewrite (Float32Array_get_f32 _ _ _ Hok Hy). reflexivity.
  - exact Happ.
  - intros i x Hi Hx Hf. rewrite Happ by exact Hi. rewrite Hx. simpl.
    rewrite Hf. reflexivity.
  - intros Hkn i Hi. rewrite <- Happ by lia.
    replace (n - k + i) with i by lia. reflexivity.
Qed.

Lemma shiftAdd_spec_witness :
  capacity line4 4 /\ Float32Array_ok (xy line4) /\ 2 <= 4
  /\ fst (WebglLine.getY 3 (snd (WebglLine.shiftAdd [9; 8]%float line4)))
     = Normal (number 8).
Proof.
  assert (Hc : capacity line4 4) by (split; reflexivity).
  assert (Hok : Float32Array_ok (xy line4)) by (repeat constructor).
  assert (Hk : 2 <= 4) by lia.
  split; [exact Hc|]. split; [exact Hok|]. split; [exact Hk|].
  destruct (shiftAdd_spec line4 [9; 8]%float 4 Hc Hok Hk) as (this' & Hrun & _ & Happ & _).
  rewrite Hrun. cbn [snd]. apply (Happ 1). simpl. lia.
Defined.

(** C1, as stated, fails: on a line buffer of capacity 1,
    [shiftAdd([0.1])] leaves [getY(0)] at the binary32 value nearest to
    one tenth, which is not [data[0]]. *)
Lemma shiftAdd_rounds :
  capacity line1 1 /\ Float32Array_ok (xy line1)
  /\ ~ (exists this',
          WebglLine.shiftAdd [tenth] line1 = (Normal tt, this')
          /\ forall i, 0 <= i < 1 ->
               fst (WebglLine.getY (1 - 1 + i) this') = Normal (Array_get [tenth] i)).
Proof.
  split; [split; reflexivity|]. split; [repeat constructor|].
  intros (this' & Hrun & Hy). specialize (Hy 0 ltac:(lia)).
  vm_compute in Hrun. injection Hrun as <-.
  vm_compute in Hy. discriminate Hy.
Qed.

(** C2, as amended.  On a line buffer of capacity [n] and for [data] of
    length [k > n], [shiftAdd(data)] does not fail: it completes
    normally, leaves every x value unchanged and sets the y value of every
    point [j] to [data[k - n + j]], rounded to the storage width; the
    buffer ends up holding the last [n] values of [data]. *)
Theorem shiftAdd_longer (this : WebglLine) (data : list float) (n : Z) :
  let k := Z.of_nat (length data) in
  capacity this n ->
  n < k ->
  exists this',
    WebglLine.shiftAdd data this = (Normal tt, this')
    /\ (forall i, fst (WebglLine.getX i this') = fst (WebglLine.getX i this))
    /\ (forall j, 0 <= j < n ->
          fst (WebglLine.getY j this')
          = Normal (number (fround (ToNumber (Array_get data (k - n + j)))))).
Proof.
  intros k [Hn Hlen] Hk.
  destruct (shiftAdd_run this data) as (a' & Hrun & _ & Hx & Hnew & _).
  rewrite Hn in Hnew. fold k in Hnew.
  exists (set_xy a' this). split; [exact Hrun|]. split.
  - intros i. rewrite !getX_run. simpl. rewrite Hx. reflexivity.
  - intros j Hj. rewrite getY_run. simpl. rewrite Hnew by lia.
    replace (j - (n - k)) with (k - n + j) by lia. reflexivity.
Qed.

Lemma shiftAdd_longer_witness :
  capacity line1 1 /\ 1 < 2
  /\ fst (WebglLine.getY 0 (snd (WebglLine.shiftAdd [1; 2]%float line1)))
     = Normal (number 2).
Proof.
  assert (Hc : capacity line1 1) by (split; reflexivity).
  assert (Hk : 1 < 2) by lia.
  split; [exact Hc|]. split; [exact Hk|].
  destruct (shiftAdd_longer line1 [1; 2]%float 1 Hc Hk) as (this' & Hrun & _ & Hy).
  rewrite Hrun. cbn [snd]. apply (Hy 0). lia.
Defined.

(** C2, as stated, fails: on a line buffer of capacity 1,
    [shiftAdd([1, 2])] does not fail with [InvalidArgument], and it
    changes the y value of point 0 from 0 to 2. *)
Lemma too_long_data_not_rejected :
  capacity line1 1
  /\ ~ (exists this', WebglLine.shiftAdd [1; 2]%float line1 = (Throw InvalidArgument, this'))
  /\ fst (WebglLine.getY 0 line1) = Normal (number 0)
  /\ fst (WebglLine.getY 0 (snd (WebglLine.shiftAdd [1; 2]%float line1)))
     = Normal (number 2).
Proof.
  split; [split; reflexivity|]. split; [|split; reflexivity].
  intros (this' & H). vm_compute in H. discriminate H.
Qed.

(** C7.  [shiftAdd(data)] completes normally and leaves every x value
    unchanged, whatever the length of [data] (so for [k <= capacity] in
    particular). *)
Theorem shiftAdd_keeps_x (this : WebglLine) (data : list float) :
  exists this',
    WebglLine.shiftAdd data this = (Normal tt, this')
    /\ forall i, WebglLine.getX i this' = (fst (WebglLine.getX i this), this').
Proof.
  destruct (shiftAdd_run this data) as (a' & Hrun & _ & Hx & _).
  exists (set_xy a' this). split; [exact Hrun|].
  intros i. rewrite !getX_run. simpl. rewrite Hx. reflexivity.
Qed.

(** C9.  A line buffer constructed with capacity [n] has a buffer of
    exactly [2 * n] numbers (and one is constructed whenever [n] is not
    negative and the engine allocates [2 * n] numbers), and [setX],
    [setY], [lineSpaceX], [constY] and [shiftAdd] keep the number of
    points and the length of the buffer: the buffer is never resized. *)
Theorem buffer_never_resized (engine_limit : Z) (c : ColorRGBA) (n : Z) :
  (forall this0, WebglLine.new engine_limit c n = Normal this0 -> capacity this0 n)
  /\ (0 <= n -> 2 * n <= Z.min engine_limit (2 ^ 53 - 1) ->
      exists this0, WebglLine.new engine_limit c n = Normal this0 /\ capacity this0 n)
  /\ forall this, capacity this n ->
       (forall i v, capacity (snd (WebglLine.setX i v this)) n)
       /\ (forall i v, capacity (snd (WebglLine.setY i v this)) n)
       /\ (forall start stepSize,
             capacity (snd (WebglLine.lineSpaceX start stepSize this)) n)
       /\ (forall y, capacity (snd (WebglLine.constY y this)) n)
       /\ (forall data, capacity (snd (WebglLine.shiftAdd data this)) n).
Proof.
  assert (Hbuilt : forall this0,
            WebglLine.new engine_limit c n = Normal this0 -> capacity this0 n).
  { unfold WebglLine.new. intros this0.
    destruct (Float32Array_new engine_limit (2 * n)) as [a0|e] eqn:Hnew; [|discriminate].
    destruct (Float32Array_new_ok _ _ _ Hnew) as [Hlen _].
    intros [= <-]. split; [reflexivity|exact Hlen]. }
  split; [exact Hbuilt|]. split.
  - intros Hn Hfit.
    destruct (WebglLine.new engine_limit c n) as [this0|e] eqn:Hnew.
    + exists this0. split; [reflexivity|]. apply Hbuilt. reflexivity.
    + unfold WebglLine.new, Float32Array_new in Hnew.
      destruct (Z.ltb_spec (2 * n) 0); [lia|].
      destruct (Z.ltb_spec (Z.min engine_limit (2 ^ 53 - 1)) (2 * n)); [lia|].
      discriminate Hnew.
  - intros this [Hp Hlen]. unfold capacity.
    split; [|split; [|split; [|split]]].
    + intros i v. rewrite setX_run. simpl. rewrite Float32Array_set_length. auto.
    + intros i v. rewrite setY_run. simpl. rewrite Float32Array_set_length. auto.
    + intros start stepSize.
      destruct (lineSpaceX_run this start stepSize) as (a' & -> & Hl & _).
      simpl. rewrite Hl. auto.
    + intros y. destruct (constY_run this y) as (a' & -> & Hl & _).
      simpl. rewrite Hl. auto.
    + intros data. destruct (shiftAdd_run this data) as (a' & -> & Hl & _).
      simpl. rewrite Hl. auto.
Qed.

Lemma buffer_never_resized_witness :
  0 <= 4 /\ 2 * 4 <= Z.min (2 ^ 30) (2 ^ 53 - 1)
  /\ (exists this0, WebglLine.new (2 ^ 30) black 4 = Normal this0 /\ capacity this0 4)
  /\ capacity line4 4
  /\ length (xy (snd (WebglLine.shiftAdd [9; 8]%float line4))) = 8%nat.
Proof.
  assert (Hn : 0 <= 4) by lia.
  assert (Hfit : 2 * 4 <= Z.min (2 ^ 30) (2 ^ 53 - 1)) by (vm_compute; discriminate).
  destruct (buffer_never_resized (2 ^ 30) black 4) as (Hbuilt & Hnew & H).
  split; [exact Hn|]. split; [exact Hfit|]. split; [exact (Hnew Hn Hfit)|].
  split; [apply Hbuilt; reflexivity|].
  destruct (H line4 (conj eq_refl eq_refl)) as (_ & _ & _ & _ & Hs).
  destruct (Hs [9; 8]%float) as [_ Hlen].
  apply Nat2Z.inj. exact Hlen.
Defined.

(** ** The plot *)

Lemma emit_nil (w : world) : emit [] w = w.
Proof.
  destruct w as [h [d [cs nb] ls sx sy ra ox oy pg]].
  unfold emit, set_plot, set_webgl. simpl. rewrite app_nil_r. reflexivity.
Qed.

Lemma emit_emit (cs1 cs2 : list GL.call) (w : world) :
  emit cs2 (emit cs1 w) = emit (cs1 ++ cs2) w.
Proof.
  unfold emit, set_plot, set_webgl. simpl. rewrite <- app_assoc. reflexivity.
Qed.

Lemma gl_run (c : GL.call) (w : world) :
  WebGLPlot.gl c w = (Normal tt, emit [c] w).
Proof. reflexivity. Qed.

Lemma getUniformLocation_run (program : glvalue) (name : string) (w : world) :
  WebGLPlot.getUniformLocation program name w
  = (Normal (WebGLUniformLocation program name),
     emit [GL.getUniformLocation program name] w).
Proof. reflexivity. Qed.

(** A [forEach] whose callback only makes calls on the context, calls
    that depend on the lines and on the plot's settings but not on the
    context, makes the calls of its elements in order. *)
Lemma forEach_emit (callback : ref -> M world unit)
    (calls_of : world -> ref -> list GL.call) :
  (forall l w, callback l w = (Normal tt, emit (calls_of w l) w)) ->
  (forall cs l w, calls_of (emit cs w) l = calls_of w l) ->
  forall ls w,
    forEach ls callback w = (Normal tt, emit (flat_map (calls_of w) ls) w).
Proof.
  intros Hcb Hstable ls. induction ls as [|l ls IH]; intros w.
  - simpl. rewrite emit_nil. reflexivity.
  - simpl. rewrite (bind_Normal _ _ _ _ _ (Hcb l w)). rewrite IH, emit_emit.
    do 3 f_equal. apply flat_map_ext. intros l'. apply Hstable.
Qed.

Lemma flat_map_visible {A} (h : ref -> WebglLine) (F : WebglLine -> list A)
    (ls : list ref) :
  flat_map (fun l => if visible (h l) then F (h l) else []) ls
  = flat_map F (List.filter visible (map h ls)).
Proof.
  induction ls as [|l ls IH]; [reflexivity|].
  simpl. destruct (visible (h l)); simpl; rewrite IH; reflexivity.
Qed.

(** [update] completes normally; all it does is to make, on the
    context, the calls of the visible attached lines in attachment
    order. *)
Lemma update_run (w : world) :
  WebGLPlot.update w
  = (Normal tt, emit (flat_map (line_calls (plot w)) (visible_lines w)) w).
Proof.
  unfold WebGLPlot.update, WebGLPlot.lines, visible_lines.
  run_gets. rewrite <- flat_map_visible.
  apply (forEach_emit _
           (fun w l => if visible (heap w l)
                       then line_calls (plot w) (heap w l) else [])).
  - intros l w0.
    run_gets. destruct (visible (heap w0 l)); [|rewrite emit_nil; reflexivity].
    run_gets.
    repeat (erewrite bind_Normal;
            [|first [apply gl_run | apply getUniformLocation_run]];
            rewrite ?emit_emit).
    rewrite gl_run, emit_emit. reflexivity.
  - intros cs l w0. reflexivity.
Qed.

(** The calls of one line draw one frame, the line's, whatever was
    current before. *)
Lemma frames_line_calls (this : WebGLPlot) (line : WebglLine) (rest : list GL.call)
    (st : frame) :
  exists st',
    frames st (line_calls this line ++ rest)
    = line_frame this line :: frames st' rest.
Proof. eexists. reflexivity. Qed.

Lemma frames_lines (this : WebGLPlot) (lines : list WebglLine) :
  forall st, frames st (flat_map (line_calls this) lines)
             = map (line_frame this) lines.
Proof.
  induction lines as [|line lines IH]; intros st; [reflexivity|].
  change (flat_map (line_calls this) (line :: lines))
    with (line_calls this line ++ flat_map (line_calls this) lines).
  destruct (frames_line_calls this line (flat_map (line_calls this) lines) st)
    as (st' & ->).
  rewrite IH. reflexivity.
Qed.

Lemma uploads_lines (this : WebGLPlot) (lines : list WebglLine) :
  List.filter is_bufferData (flat_map (line_calls this) lines)
  = map (fun line => GL.bufferData GL.ARRAY_BUFFER (xy line) GL.STREAM_DRAW) lines.
Proof.
  induction lines as [|line lines IH]; [reflexivity|].
  simpl. rewrite IH. reflexivity.
Qed.

Lemma draws_lines (this : WebGLPlot) (lines : list WebglLine) :
  List.filter is_drawArrays (flat_map (line_calls this) lines)
  = map (fun line =>
           GL.drawArrays (if loop line then GL.LINE_LOOP else GL.LINE_STRIP)
             0 (webglNumPoints line)) lines.
Proof.
  induction lines as [|line lines IH]; [reflexivity|].
  simpl. rewrite IH. reflexivity.
Qed.

(** C4, as amended.  [update] completes normally and makes, after the
    calls already made, exactly the calls of the attached lines that are
    visible, in attachment order.  These calls draw one frame per visible
    line: its scale is the line's scale times the plot's global scale
    (times the XY ratio on the y axis) and its offset the line's offset
    plus the global offset, each rounded to binary32 (the uniforms are
    handed over in a [Float32Array]); its data is the line's buffer, its
    topology a closed loop when [loop] is set and an open strip
    otherwise.  There is one buffer upload and one draw call per visible
    line. *)
Theorem update_draws_visible_lines (w : world) :
  exists w',
    WebGLPlot.update w = (Normal tt, w')
    /\ GL.calls (webgl (plot w'))
       = GL.calls (webgl (plot w))
         ++ flat_map (line_calls (plot w)) (visible_lines w)
    /\ (forall st,
          frames st (flat_map (line_calls (plot w)) (visible_lines w))
          = map (line_frame (plot w)) (visible_lines w))
    /\ List.filter is_bufferData (flat_map (line_calls (plot w)) (visible_lines w))
       = map (fun line => GL.bufferData GL.ARRAY_BUFFER (xy line) GL.STREAM_DRAW)
           (visible_lines w)
    /\ List.filter is_drawArrays (flat_map (line_calls (plot w)) (visible_lines w))
       = map (fun line =>
                GL.drawArrays (if loop line then GL.LINE_LOOP else GL.LINE_STRIP)
                  0 (webglNumPoints line))
           (visible_lines w).
Proof.
  eexists. split; [apply update_run|].
  split; [reflexivity|].
  split; [apply frames_lines|].
  split; [apply uploads_lines|apply draws_lines].
Qed.

(** C4, as stated, fails: for a visible line with x scale 0.1 under a
    unit global scale, the scale [update] hands to the context is the
    binary32 value nearest to one tenth, 0.10000000149011612, not the
    product [0.1 * 1]. *)
Lemma update_rounds_scale :
  visible_lines world_tenth = [line_tenth]
  /\ ~ (exists w' cs,
          WebGLPlot.update world_tenth = (Normal tt, w')
          /\ GL.calls (webgl (plot w')) = GL.calls (webgl (plot world_tenth)) ++ cs
          /\ frames blank_frame cs
             = [ {| f_scale :=
                      [ (scaleX line_tenth * gScaleX (plot world_tenth))%float;
                        0%float; 0%float;
                        (scaleY line_tenth * gScaleY (plot world_tenth)
                         * gXYratio (plot world_tenth))%float ];
                    f_offset :=
                      [ (offsetX line_tenth + gOffsetX (plot world_tenth))%float;
                        (offsetY line_tenth + gOffsetY (plot world_tenth))%float ];
                    f_color := [0; 0; 0; 1]%float;
                    f_data := xy line_tenth;
                    f_mode := GL.LINE_STRIP;
                    f_count := 1 |} ])
  /\ map f_scale
       (frames blank_frame (GL.calls (webgl (plot (snd (WebGLPlot.update world_tenth))))))
     = [ [0x1.99999ap-4; 0; 0; 1]%float ].
Proof.
  split; [reflexivity|]. split; [|reflexivity].
  intros (w' & cs & Hrun & Hcalls & Hf).
  vm_compute in Hrun. injection Hrun as <-.
  cbn [GL.calls webgl plot world_tenth app] in Hcalls. subst cs.
  vm_compute in Hf. discriminate Hf.
Qed.

(** [addLine] completes normally and appends the line to the draw-order
    collection. *)
Lemma addLine_run (l : ref) (w : world) :
  exists w', WebGLPlot.addLine l w = (Normal tt, w')
             /\ _lines (plot w') = _lines (plot w) ++ [l].
Proof. eexists. split; reflexivity. Qed.

Lemma addLines_run (ls : list ref) :
  forall w, exists w',
    forEach ls WebGLPlot.addLine w = (Normal tt, w')
    /\ _lines (plot w') = _lines (plot w) ++ ls.
Proof.
  induction ls as [|l ls IH]; intros w.
  - exists w. split; [reflexivity|]. rewrite app_nil_r. reflexivity.
  - destruct (addLine_run l w) as (w1 & Hadd & Hl1).
    destruct (IH w1) as (w' & Hrest & Hl').
    exists w'. split.
    + simpl. rewrite (bind_Normal _ _ _ _ _ Hadd). exact Hrest.
    + rewrite Hl', Hl1, <- app_assoc. reflexivity.
Qed.

(** C8.  From any world, after [addLine] has been called for each line of
    any sequence [ls] (which appends them to the draw-order collection)
    and [removeAllLines] has been called, the draw-order collection is
    empty, and [update] then completes normally without a call on the
    context: it issues no call at all, so no draw call. *)
Theorem removeAllLines_empties (w : world) (ls : list ref) :
  exists w1 w2 w3,
    forEach ls WebGLPlot.addLine w = (Normal tt, w1)
    /\ _lines (plot w1) = _lines (plot w) ++ ls
    /\ WebGLPlot.removeAllLines w1 = (Normal tt, w2)
    /\ _lines (plot w2) = []
    /\ WebGLPlot.update w2 = (Normal tt, w3)
    /\ GL.calls (webgl (plot w3)) = GL.calls (webgl (plot w2)).
Proof.
  destruct (addLines_run ls w) as (w1 & Hadd & Hl).
  exists w1. do 2 eexists. split; [exact Hadd|]. split; [exact Hl|].
  split; [reflexivity|]. split; [reflexivity|].
  split; [apply update_run|].
  simpl. apply app_nil_r.
Qed.

(** C10.  [update] completes normally and changes neither a line nor the
    plot's settings: the line objects (buffer contents, scale, offset,
    color, [loop], [visible] and the rest), the draw-order collection and
    the global scale, offset and ratio are afterwards what they were. *)
Theorem update_changes_no_line (w : world) :
  exists w',
    WebGLPlot.update w = (Normal tt, w')
    /\ heap w' = heap w
    /\ _lines (plot w') = _lines (plot w)
    /\ gScaleX (plot w') = gScaleX (plot w)
    /\ gScaleY (plot w') = gScaleY (plot w)
    /\ gXYratio (plot w') = gXYratio (plot w)
    /\ gOffsetX (plot w') = gOffsetX (plot w)
    /\ gOffsetY (plot w') = gOffsetY (plot w).
Proof.
  eexists. split; [apply update_run|]. simpl. repeat split.
Qed.

(* ================================================================== *)
(** * Part III: further properties of the line buffer and the plot      *)
(* ================================================================== *)

(** ** Construction *)

(** X1.  [new WebglLine(c, n)] throws [RangeError] when [n] is negative
    or [2 * n] is above the largest typed-array length the engine
    allocates (2^53 - 1 at most).  Otherwise it yields a visible, open
    line of color [c] with unit scale and no offset, whose [n] points
    are all at (0, 0) and whose buffer holds binary32 values. *)
Theorem new_line_is_zero (engine_limit : Z) (c : ColorRGBA) (n : Z) :
  (n < 0 \/ Z.min engine_limit (2 ^ 53 - 1) < 2 * n ->
   WebglLine.new engine_limit c n = Throw RangeError)
  /\ (0 <= n -> 2 * n <= Z.min engine_limit (2 ^ 53 - 1) ->
      exists this,
        WebglLine.new engine_limit c n = Normal this
        /\ capacity this n
        /\ Float32Array_ok (xy this)
        /\ (forall i, 0 <= i < n ->
              WebglLine.getX i this = (Normal (number 0), this)
              /\ WebglLine.getY i this = (Normal (number 0), this))
        /\ visible this = true /\ loop this = false /\ color this = c
        /\ scaleX this = 1%float /\ scaleY this = 1%float
        /\ offsetX this = 0%float /\ offsetY this = 0%float).
Proof.
  unfold WebglLine.new, Float32Array_new. split.
  - intros Hn.
    destruct (Z.ltb_spec (2 * n) 0); [reflexivity|].
    destruct (Z.ltb_spec (Z.min engine_limit (2 ^ 53 - 1)) (2 * n)); [reflexivity|lia].
  - intros Hn Hfit.
    destruct (Z.ltb_spec (2 * n) 0); [lia|].
    destruct (Z.ltb_spec (Z.min engine_limit (2 ^ 53 - 1)) (2 * n)); [lia|].
    eexists. split; [reflexivity|]. simpl.
    split; [split; [reflexivity|simpl; rewrite length_replicate; lia]|].
    split; [apply Forall_replicate; reflexivity|].
    split; [|repeat split].
    intros i Hi. rewrite getX_run, getY_run. simpl. unfold Float32Array_get.
    destruct (Z.leb_spec 0 (i * 2)); [|lia].
    destruct (Z.leb_spec 0 (i * 2 + 1)); [|lia].
    rewrite !lookup_replicate_2 by lia. split; reflexivity.
Qed.

Lemma new_line_is_zero_witness :
  WebglLine.new (2 ^ 30) black (-3) = Throw RangeError
  /\ WebglLine.new (2 ^ 30) black (2 ^ 31) = Throw RangeError
  /\ WebglLine.new (2 ^ 60) black (2 ^ 53) = Throw RangeError
  /\ exists this, WebglLine.new (2 ^ 30) black 4 = Normal this
                  /\ WebglLine.getY 3 this = (Normal (number 0), this).
Proof.
  destruct (new_line_is_zero (2 ^ 30) black (-3)) as [Hneg _].
  destruct (new_line_is_zero (2 ^ 30) black (2 ^ 31)) as [Hbig _].
  destruct (new_line_is_zero (2 ^ 60) black (2 ^ 53)) as [Hhuge _].
  destruct (new_line_is_zero (2 ^ 30) black 4) as [_ Hpos].
  split; [apply Hneg; left; lia|].
  split; [apply Hbig; right; vm_compute; reflexivity|].
  split; [apply Hhuge; right; vm_compute; reflexivity|].
  destruct Hpos as (this & Hnew & _ & _ & Hz & _);
    [lia|vm_compute; discriminate|].
  exists this. split; [exact Hnew|]. apply (Hz 3). lia.
Defined.

(** ** Point accessors *)

(** X2.  [setX(i, v)] changes the x value of point [i] at most: every y
    value and the x value of every other point are what they were.
    Likewise [setY(i, v)] changes the y value of point [i] at most. *)
Theorem set_changes_one_slot (this : WebglLine) (i : Z) (v : value) :
  (forall j, WebglLine.getY j (snd (WebglLine.setX i v this))
             = (fst (WebglLine.getY j this), snd (WebglLine.setX i v this)))
  /\ (forall j, j <> i ->
        WebglLine.getX j (snd (WebglLine.setX i v this))
        = (fst (WebglLine.getX j this), snd (WebglLine.setX i v this)))
  /\ (forall j, WebglLine.getX j (snd (WebglLine.setY i v this))
                = (fst (WebglLine.getX j this), snd (WebglLine.setY i v this)))
  /\ (forall j, j <> i ->
        WebglLine.getY j (snd (WebglLine.setY i v this))
        = (fst (WebglLine.getY j this), snd (WebglLine.setY i v this))).
Proof.
  rewrite setX_run, setY_run. cbn [snd].
  split; [|split; [|split]]; intros j; try intros Hj;
    rewrite !getX_run || rewrite !getY_run; cbn [fst xy set_xy];
    rewrite Float32Array_get_set_ne by lia; reflexivity.
Qed.

(** ** constY *)

(** X3.  On a line buffer of capacity [n], [constY(c)] completes normally;
    afterwards [getY(i)] is [c] rounded to the storage width for every
    [0 <= i < n], and no x value has changed. *)
Theorem constY_spec (this : WebglLine) (n : Z) (c : float) :
  capacity this n ->
  exists this',
    WebglLine.constY c this = (Normal tt, this')
    /\ (forall i, 0 <= i < n ->
          WebglLine.getY i this' = (Normal (number (fround c)), this'))
    /\ (forall i, WebglLine.getX i this' = (fst (WebglLine.getX i this), this')).
Proof.
  intros [Hn Hlen].
  destruct (constY_run this c) as (a' & Hrun & _ & Hw & Hk).
  exists (set_xy a' this). split; [exact Hrun|]. split.
  - intros i Hi. rewrite getY_run. simpl. rewrite Hw by lia. reflexivity.
  - intros i. rewrite !getX_run. simpl. rewrite Hk by (intros; lia). reflexivity.
Qed.

Lemma constY_spec_witness :
  capacity line4 4
  /\ fst (WebglLine.getY 2 (snd (WebglLine.constY tenth line4)))
     = Normal (number (fround tenth)).
Proof.
  assert (Hc : capacity line4 4) by (split; reflexivity).
  split; [exact Hc|].
  destruct (constY_spec line4 4 tenth Hc) as (this' & Hrun & Hy & _).
  rewrite Hrun. cbn [snd]. rewrite (Hy 2) by lia. reflexivity.
Defined.

(** Reading an array at a key out of its bounds (used to compare two
    arrays of one length key by key). *)
Lemma Float32Array_get_same_outside (a1 a2 : Float32Array) key :
  length a1 = length a2 ->
  ~ (0 <= key < Z.of_nat (length a2)) ->
  Float32Array_get a1 key = Float32Array_get a2 key.
Proof.
  intros Hlen Hout. rewrite !Float32Array_get_outside by (rewrite ?Hlen; exact Hout).
  reflexivity.
Qed.

(** X4.  The bulk initialisers overwrite: [lineSpaceX] after [lineSpaceX]
    and [constY] after [constY] leave the line exactly as the second call
    alone leaves it. *)
Theorem initialisers_overwrite (this : WebglLine) (s1 t1 s2 t2 c1 c2 : float) :
  (WebglLine.lineSpaceX s1 t1 ;; WebglLine.lineSpaceX s2 t2) this
  = WebglLine.lineSpaceX s2 t2 this
  /\ (WebglLine.constY c1 ;; WebglLine.constY c2) this = WebglLine.constY c2 this.
Proof.
  split.
  - destruct (lineSpaceX_run this s1 t1) as (a1 & Hrun1 & Hl1 & _ & Hk1).
    destruct (lineSpaceX_run (set_xy a1 this) s2 t2) as (a12 & Hrun12 & Hl12 & Hw12 & Hk12).
    destruct (lineSpaceX_run this s2 t2) as (a2 & Hrun2 & Hl2 & Hw2 & Hk2).
    rewrite set_xy_set_xy in Hrun12. simpl in Hl12, Hw12, Hk12.
    rewrite (bind_Normal _ _ _ _ _ Hrun1), Hrun12, Hrun2.
    apply (f_equal (fun a' : Float32Array => (Normal tt, set_xy a' this))).
    apply Float32Array_ext. intros key.
    destruct (Z_lt_dec key 0) as [|Hk0];
      [apply Float32Array_get_same_outside; [congruence|lia]|].
    destruct (Z_lt_dec key (Z.of_nat (length a2))) as [Hin|];
      [|apply Float32Array_get_same_outside; [congruence|lia]].
    destruct (Z.Even_or_Odd key) as [[i ->]|[i ->]].
    + destruct (Z_lt_dec i (numPoints this)) as [Hi|Hi].
      * replace (2 * i) with (i * 2) by lia.
        rewrite Hw12, Hw2 by lia. reflexivity.
      * rewrite Hk12, Hk1, Hk2 by (intros; lia). reflexivity.
    + rewrite Hk12, Hk1, Hk2 by (intros; lia). reflexivity.
  - destruct (constY_run this c1) as (a1 & Hrun1 & Hl1 & _ & Hk1).
    destruct (constY_run (set_xy a1 this) c2) as (a12 & Hrun12 & Hl12 & Hw12 & Hk12).
    destruct (constY_run this c2) as (a2 & Hrun2 & Hl2 & Hw2 & Hk2).
    rewrite set_xy_set_xy in Hrun12. simpl in Hl12, Hw12, Hk12.
    rewrite (bind_Normal _ _ _ _ _ Hrun1), Hrun12, Hrun2.
    apply (f_equal (fun a' : Float32Array => (Normal tt, set_xy a' this))).
    apply Float32Array_ext. intros key.
    destruct (Z_lt_dec key 0) as [|Hk0];
      [apply Float32Array_get_same_outside; [congruence|lia]|].
    destruct (Z_lt_dec key (Z.of_nat (length a2))) as [Hin|];
      [|apply Float32Array_get_same_outside; [congruence|lia]].
    destruct (Z.Even_or_Odd key) as [[i ->]|[i ->]].
    + rewrite Hk12, Hk1, Hk2 by (intros; lia). reflexivity.
    + destruct (Z_lt_dec i (numPoints this)) as [Hi|Hi].
      * replace (2 * i + 1) with (i * 2 + 1) by lia.
        rewrite Hw12, Hw2 by lia. reflexivity.
      * rewrite Hk12, Hk1, Hk2 by (intros; lia). reflexivity.
Qed.

(** ** shiftAdd *)

(** What an array of binary32 values yields at any key rounds to
    itself. *)
Lemma read_rounds_to_itself (a : Float32Array) (key : Z) :
  Float32Array_ok a ->
  number (fround (ToNumber (Float32Array_get a key))) = number (ToNumber (Float32Array_get a key)).
Proof.
  intros Ha. destruct (Float32Array_get a key) as [|x] eqn:Hx; [reflexivity|].
  simpl. rewrite (Float32Array_get_f32 a key x Ha Hx). reflexivity.
Qed.

Lemma Array_get_app (d1 d2 : list float) (i : Z) :
  (0 <= i < Z.of_nat (length d1) -> Array_get (d1 ++ d2) i = Array_get d1 i)
  /\ (Z.of_nat (length d1) <= i ->
      Array_get (d1 ++ d2) i = Array_get d2 (i - Z.of_nat (length d1))).
Proof.
  unfold Array_get. split; intros Hi.
  - destruct (Z.leb_spec 0 i); [|lia]. rewrite lookup_app_l by lia. reflexivity.
  - destruct (Z.leb_spec 0 i); [|lia].
    destruct (Z.leb_spec 0 (i - Z.of_nat (length d1))); [|lia].
    rewrite lookup_app_r by lia.
    replace (Z.to_nat i - length d1)%nat with (Z.to_nat (i - Z.of_nat (length d1))) by lia.
    reflexivity.
Qed.

(** X5.  [shiftAdd] of an empty array leaves a line whose buffer holds
    binary32 values exactly as it was: each y value is copied onto
    itself. *)
Theorem shiftAdd_nothing (this : WebglLine) :
  Float32Array_ok (xy this) ->
  WebglLine.shiftAdd [] this = (Normal tt, this).
Proof.
  intros Hok.
  destruct (shiftAdd_run this []) as (a' & Hrun & Hlen & Hx & _ & Hold & Hout).
  simpl in Hold, Hout. rewrite Hrun. rewrite <- (set_xy_same this) at 2.
  apply (f_equal (fun a0 : Float32Array => (Normal tt, set_xy a0 this))).
  apply Float32Array_ext. intros key.
  destruct (Z_lt_dec key 0) as [|Hk0];
    [apply Float32Array_get_same_outside; [exact Hlen|lia]|].
  destruct (Z_lt_dec key (Z.of_nat (length (xy this)))) as [Hin|];
    [|apply Float32Array_get_same_outside; [exact Hlen|lia]].
  destruct (Z.Even_or_Odd key) as [[i ->]|[i ->]].
  - replace (2 * i) with (i * 2) by lia. apply Hx.
  - replace (2 * i + 1) with (i * 2 + 1) by lia.
    destruct (Z_lt_dec i (numPoints this)) as [Hi|Hi].
    + rewrite Hold by lia. replace (i + Z.of_nat 0) with i by lia.
      rewrite (read_rounds_to_itself _ _ Hok).
      destruct (Float32Array_get_inside (xy this) (i * 2 + 1)) as (y & -> & _); [lia|].
      reflexivity.
    + apply Hout. lia.
Qed.

Lemma shiftAdd_nothing_witness :
  Float32Array_ok (xy line4)
  /\ WebglLine.shiftAdd [] line4 = (Normal tt, line4).
Proof.
  assert (Hok : Float32Array_ok (xy line4)) by (repeat constructor).
  split; [exact Hok|]. apply (shiftAdd_nothing line4 Hok).
Defined.

(** X6.  Appending in chunks is appending at once: on a line buffer of
    capacity [n] whose buffer holds binary32 values, [shiftAdd(d1)]
    followed by [shiftAdd(d2)] leaves the line exactly as
    [shiftAdd(d1.concat(d2))] does, for binary32 values [d1] and any
    lengths (longer than the capacity included). *)
Theorem shiftAdd_chunks (this : WebglLine) (n : Z) (d1 d2 : list float) :
  capacity this n ->
  Float32Array_ok (xy this) ->
  Forall is_f32 d1 ->
  (WebglLine.shiftAdd d1 ;; WebglLine.shiftAdd d2) this
  = WebglLine.shiftAdd (d1 ++ d2) this.
Proof.
  intros [Hn Hlen] Hok Hd1.
  destruct (shiftAdd_run this d1) as (a1 & Hrun1 & Hl1 & Hx1 & Hnew1 & Hold1 & _).
  destruct (shiftAdd_run (set_xy a1 this) d2)
    as (a12 & Hrun12 & Hl12 & Hx12 & Hnew12 & Hold12 & _).
  destruct (shiftAdd_run this (d1 ++ d2)) as (ac & Hrunc & Hlc & Hxc & Hnewc & Holdc & _).
  rewrite set_xy_set_xy in Hrun12. simpl in Hl12, Hx12, Hnew12, Hold12.
  rewrite length_app, Nat2Z.inj_add in Hnewc, Holdc.
  rewrite Hn in Hnew1, Hold1, Hnew12, Hold12, Hnewc, Holdc.
  set (k1 := Z.of_nat (length d1)) in *. set (k2 := Z.of_nat (length d2)) in *.
  rewrite (bind_Normal _ _ _ _ _ Hrun1), Hrun12, Hrunc.
  apply (f_equal (fun a0 : Float32Array => (Normal tt, set_xy a0 this))).
  apply Float32Array_ext. intros key.
  destruct (Z_lt_dec key 0) as [|Hk0];
    [apply Float32Array_get_same_outside; [congruence|lia]|].
  destruct (Z_lt_dec key (Z.of_nat (length ac))) as [Hin|];
    [|apply Float32Array_get_same_outside; [congruence|lia]].
  destruct (Z.Even_or_Odd key) as [[i ->]|[j ->]].
  - replace (2 * i) with (i * 2) by lia. rewrite Hx12, Hx1, Hxc. reflexivity.
  - replace (2 * j + 1) with (j * 2 + 1) in * by lia.
    destruct (Z_le_dec (n - (k1 + k2)) j) as [Hnew|Hold].
    + rewrite Hnewc by lia.
      destruct (Z_le_dec (n - k2) j) as [H2|H2].
      * rewrite Hnew12 by lia.
        rewrite (proj2 (Array_get_app d1 d2 (j - (n - (k1 + k2))))) by (fold k1; lia).
        fold k1. replace (j - (n - (k1 + k2)) - k1) with (j - (n - k2)) by lia.
        reflexivity.
      * rewrite Hold12 by lia. rewrite Hnew1 by lia.
        rewrite (proj1 (Array_get_app d1 d2 (j - (n - (k1 + k2))))) by (fold k1; lia).
        replace (j + k2 - (n - k1)) with (j - (n - (k1 + k2))) by lia.
        pose proof (read_rounds_to_itself d1 (j - (n - (k1 + k2))) Hd1) as Hr.
        change (Float32Array_get d1) with (Array_get d1) in Hr.
        rewrite Hr. simpl. rewrite Hr. reflexivity.
    + rewrite Holdc by lia. rewrite Hold12 by lia. rewrite Hold1 by lia.
      replace ((j + k2 + k1) * 2 + 1) with ((j + (k1 + k2)) * 2 + 1) by lia.
      rewrite (read_rounds_to_itself _ _ Hok). simpl.
      rewrite (read_rounds_to_itself _ _ Hok). reflexivity.
Qed.

Lemma shiftAdd_chunks_witness :
  capacity line4 4 /\ Float32Array_ok (xy line4) /\ Forall is_f32 [1; 2; 3]%float
  /\ (WebglLine.shiftAdd [1; 2; 3]%float ;; WebglLine.shiftAdd [tenth; 5]%float) line4
     = WebglLine.shiftAdd [1; 2; 3; tenth; 5]%float line4.
Proof.
  assert (Hc : capacity line4 4) by (split; reflexivity).
  assert (Hok : Float32Array_ok (xy line4)) by (repeat constructor).
  assert (Hd : Forall is_f32 [1; 2; 3]%float) by (repeat constructor).
  split; [exact Hc|]. split; [exact Hok|]. split; [exact Hd|].
  apply (shiftAdd_chunks line4 4 [1; 2; 3]%float [tenth; 5]%float Hc Hok Hd).
Defined.

(** X7.  Laying out the x axis and streaming y values do not interfere:
    [lineSpaceX] then [shiftAdd] leaves the line exactly as [shiftAdd]
    then [lineSpaceX] does. *)
Theorem lineSpaceX_shiftAdd_commute (this : WebglLine) (start stepSize : float)
    (data : list float) :
  (WebglLine.lineSpaceX start stepSize ;; WebglLine.shiftAdd data) this
  = (WebglLine.shiftAdd data ;; WebglLine.lineSpaceX start stepSize) this.
Proof.
  destruct (lineSpaceX_run this start stepSize) as (a1 & Hrun1 & Hl1 & Hw1 & Hk1).
  destruct (shiftAdd_run (set_xy a1 this) data)
    as (a12 & Hrun12 & Hl12 & Hx12 & Hnew12 & Hold12 & Hout12).
  destruct (shiftAdd_run this data) as (a2 & Hrun2 & Hl2 & Hx2 & Hnew2 & Hold2 & Hout2).
  destruct (lineSpaceX_run (set_xy a2 this) start stepSize)
    as (a21 & Hrun21 & Hl21 & Hw21 & Hk21).
  rewrite set_xy_set_xy in Hrun12, Hrun21.
  simpl in Hl12, Hx12, Hnew12, Hold12, Hout12, Hl21, Hw21, Hk21.
  rewrite (bind_Normal _ _ _ _ _ Hrun1), Hrun12.
  rewrite (bind_Normal _ _ _ _ _ Hrun2), Hrun21.
  apply (f_equal (fun a0 : Float32Array => (Normal tt, set_xy a0 this))).
  apply Float32Array_ext. intros key.
  destruct (Z_lt_dec key 0) as [|Hk0];
    [apply Float32Array_get_same_outside; [congruence|lia]|].
  destruct (Z_lt_dec key (Z.of_nat (length a21))) as [Hin|];
    [|apply Float32Array_get_same_outside; [congruence|lia]].
  destruct (Z.Even_or_Odd key) as [[i ->]|[j ->]].
  - replace (2 * i) with (i * 2) in * by lia. rewrite Hx12.
    destruct (Z_lt_dec i (numPoints this)) as [Hi|Hi].
    + rewrite Hw1, Hw21 by lia. reflexivity.
    + rewrite Hk1, Hk21 by (intros; lia). rewrite Hx2. reflexivity.
  - replace (2 * j + 1) with (j * 2 + 1) in * by lia.
    rewrite Hk21 by (intros; lia).
    destruct (Z_lt_dec j (numPoints this)) as [Hj|Hj].
    + destruct (Z_le_dec (numPoints this - Z.of_nat (length data)) j) as [Hnew|Hold].
      * rewrite Hnew12, Hnew2 by lia. reflexivity.
      * rewrite Hold12, Hold2 by lia. rewrite Hk1 by (intros; lia). reflexivity.
    + rewrite Hout12, Hout2 by lia. apply Hk1. intros; lia.
Qed.

(** ** addLine, popLine and update *)

(** X8.  [addLine(line)] completes normally.  It appends the line to the
    draw-order collection, gives the line a buffer handle the context had
    not handed out before and the location of the [coordinates]
    attribute, and uploads the line's buffer once.  It changes nothing
    else: no other line, none of the line's point data, flags, scale,
    offset or color, and none of the plot's global settings. *)
Theorem addLine_effect (l : ref) (w : world) :
  exists w1,
    WebGLPlot.addLine l w = (Normal tt, w1)
    /\ _lines (plot w1) = _lines (plot w) ++ [l]
    /\ heap w1 l
       = set_coord (AttribLocation (progThinLine (plot w)) "coordinates")
           (set_vbuffer (WebGLBuffer (GL.buffers (webgl (plot w)))) (heap w l))
    /\ (forall l', l' <> l -> heap w1 l' = heap w l')
    /\ GL.buffers (webgl (plot w1)) = Datatypes.S (GL.buffers (webgl (plot w)))
    /\ List.filter is_bufferData (GL.calls (webgl (plot w1)))
       = List.filter is_bufferData (GL.calls (webgl (plot w)))
         ++ [GL.bufferData GL.ARRAY_BUFFER (xy (heap w l)) GL.STREAM_DRAW]
    /\ set_webgl (webgl (plot w)) (set_lines (_lines (plot w)) (plot w1)) = plot w.
Proof.
  eexists. split; [reflexivity|]. cbn [plot heap _lines webgl set_plot set_lines set_webgl store].
  split; [reflexivity|]. split; [|split; [|split; [|split]]].
  - rewrite !Nat.eqb_refl. reflexivity.
  - intros l' Hl. apply Nat.eqb_neq in Hl. rewrite !Hl. reflexivity.
  - reflexivity.
  - cbn. rewrite !Nat.eqb_refl. rewrite !List.filter_app. cbn.
    rewrite !app_nil_r. reflexivity.
  - destruct w as [h [d ctx ls sx sy ra ox oy pg]]. reflexivity.
Qed.

Lemma line_frame_tagged (this : WebGLPlot) (line : WebglLine) (b c : glvalue) :
  line_frame this (set_coord c (set_vbuffer b line)) = line_frame this line.
Proof. reflexivity. Qed.

Lemma line_frame_settings (p1 p2 : WebGLPlot) (line : WebglLine) :
  set_webgl (webgl p2) (set_lines (_lines p2) p1) = p2 ->
  line_frame p1 line = line_frame p2 line.
Proof. intros <-. reflexivity. Qed.

(** X9.  Attachment order is draw order: the [update] that follows
    [addLine(line)] draws the frames an [update] would have drawn before,
    then the frame of [line] if it is visible. *)
Theorem addLine_is_drawn_last (l : ref) (w : world) :
  exists w1 w2 cs,
    WebGLPlot.addLine l w = (Normal tt, w1)
    /\ WebGLPlot.update w1 = (Normal tt, w2)
    /\ GL.calls (webgl (plot w2)) = GL.calls (webgl (plot w1)) ++ cs
    /\ forall st,
         frames st cs
         = map (line_frame (plot w)) (visible_lines w)
           ++ (if visible (heap w l) then [line_frame (plot w) (heap w l)] else []).
Proof.
  destruct (addLine_effect l w) as (w1 & Hadd & Hls & Hl & Hother & _ & _ & Hset).
  exists w1. do 2 eexists. split; [exact Hadd|]. split; [apply update_run|].
  split; [reflexivity|]. intros st. rewrite frames_lines.
  unfold visible_lines. rewrite Hls, map_app, List.filter_app, map_app.
  assert (Hsame : forall l', visible (heap w1 l') = visible (heap w l')
                             /\ line_frame (plot w1) (heap w1 l')
                                = line_frame (plot w) (heap w l')).
  { intros l'. destruct (Nat.eq_dec l' l) as [->|Hne].
    - rewrite Hl, line_frame_tagged. split; [reflexivity|].
      apply line_frame_settings, Hset.
    - rewrite (Hother l' Hne). split; [reflexivity|].
      apply line_frame_settings, Hset. }
  clear - Hsame. f_equal.
  - induction (_lines (plot w)) as [|l' ls IH]; [reflexivity|].
    simpl. destruct (Hsame l') as [Hv Hf]. rewrite Hv.
    destruct (visible (heap w l')); simpl; [rewrite Hf, IH|rewrite IH]; reflexivity.
  - simpl. destruct (Hsame l) as [Hv Hf]. rewrite Hv.
    destruct (visible (heap w l)); simpl; [rewrite Hf|]; reflexivity.
Qed.

(** X10.  [popLine] completes normally and removes the line attached
    last from the draw-order collection; with no line attached it
    changes nothing.  It makes no call on the context and leaves every
    line object alone. *)
Theorem popLine_removes_last (w : world) :
  exists w',
    WebGLPlot.popLine w = (Normal tt, w')
    /\ heap w' = heap w
    /\ webgl (plot w') = webgl (plot w)
    /\ (forall ls l, _lines (plot w) = ls ++ [l] -> _lines (plot w') = ls)
    /\ (_lines (plot w) = [] -> w' = w).
Proof.
  eexists. split; [reflexivity|]. simpl.
  split; [reflexivity|]. split; [reflexivity|]. split.
  - intros ls l ->. apply removelast_last.
  - intros H. destruct w as [h [d ctx ls sx sy ra ox oy pg]]. simpl in *.
    subst ls. reflexivity.
Qed.

Lemma popLine_removes_last_witness :
  _lines (plot world0) = [0; 1]%nat ++ [0%nat]
  /\ _lines (plot (snd (WebGLPlot.popLine world0))) = [0; 1]%nat
  /\ snd (WebGLPlot.popLine (snd (WebGLPlot.removeAllLines world0)))
     = snd (WebGLPlot.removeAllLines world0).
Proof.
  assert (H0 : _lines (plot world0) = [0; 1]%nat ++ [0%nat]) by reflexivity.
  split; [exact H0|].
  destruct (popLine_removes_last world0) as (w' & Hrun & _ & _ & Hlast & _).
  destruct (popLine_removes_last (snd (WebGLPlot.removeAllLines world0)))
    as (w'' & Hrun' & _ & _ & _ & Hnone).
  rewrite Hrun, Hrun'. cbn [snd]. split.
  - apply (Hlast _ _ H0).
  - apply Hnone. reflexivity.
Defined.

(** X11.  [popLine] after [addLine(line)] restores the draw-order
    collection, but releases nothing: the buffer created for the line
    stays allocated and the line keeps its handle; no call is made on the
    context. *)
Theorem addLine_popLine (l : ref) (w : world) :
  exists w1 w2,
    WebGLPlot.addLine l w = (Normal tt, w1)
    /\ WebGLPlot.popLine w1 = (Normal tt, w2)
    /\ _lines (plot w2) = _lines (plot w)
    /\ webgl (plot w2) = webgl (plot w1)
    /\ GL.buffers (webgl (plot w2)) = Datatypes.S (GL.buffers (webgl (plot w)))
    /\ _vbuffer (heap w2 l) = WebGLBuffer (GL.buffers (webgl (plot w))).
Proof.
  destruct (addLine_effect l w) as (w1 & Hadd & Hls & Hl & _ & Hb & _).
  destruct (popLine_removes_last w1) as (w2 & Hpop & Hheap & Hgl & Hlast & _).
  exists w1, w2. split; [exact Hadd|]. split; [exact Hpop|].
  split; [apply (Hlast _ _ Hls)|]. split; [exact Hgl|].
  split; [rewrite Hgl; exact Hb|]. rewrite Hheap, Hl. reflexivity.
Qed.

(** X12.  With every attached line hidden, [update] completes normally
    and leaves the world, the context included, as it was. *)
Theorem update_all_hidden (w : world) :
  (forall l, In l (_lines (plot w)) -> visible (heap w l) = false) ->
  WebGLPlot.update w = (Normal tt, w).
Proof.
  intros Hhid. rewrite update_run. unfold visible_lines.
  replace (List.filter visible (map (heap w) (_lines (plot w)))) with (@nil WebglLine).
  - simpl. rewrite emit_nil. reflexivity.
  - induction (_lines (plot w)) as [|l ls IH]; [reflexivity|].
    simpl. rewrite (Hhid l) by (left; reflexivity).
    apply IH. intros l' Hl'. apply Hhid. right. exact Hl'.
Qed.

Lemma update_all_hidden_witness :
  (forall l, In l (_lines (plot world1)) -> visible (heap world1 l) = false)
  /\ WebGLPlot.update world1 = (Normal tt, world1).
Proof.
  assert (H : forall l, In l (_lines (plot world1)) -> visible (heap world1 l) = false).
  { intros l [<-|[<-|[]]]; reflexivity. }
  split; [exact H|]. apply (update_all_hidden world1 H).
Defined.

(* ================================================================== *)
(** * Part IV: the microphone page                                      *)
(* ================================================================== *)

Example Math_max_examples :
  Math_max [number 1; number 3; number 2] = 3%float
  /\ Math_max [] = neg_infinity
  /\ Math_max [number 1; undefined] = nan
  /\ Math_max [number (-0); number 0] = 0%float
  /\ Math_max [number 0; number (-0)] = 0%float
  /\ Math_max [number (-0)] = (-0)%float.
Proof. repeat split. Qed.

(** [Math.max] is [NaN] as soon as one of its arguments is. *)
Lemma Math_max_from_nan (args : list float) :
  In nan args -> forall highest, Math_max_from highest args = nan.
Proof.
  induction args as [|x rest IH]; intros Hin highest; [destruct Hin|].
  simpl. destruct (is_nan x) eqn:Hx; [reflexivity|].
  destruct Hin as [->|Hin]; [discriminate Hx|].
  destruct (_ && _); [apply IH, Hin|].
  destruct (ltb highest x); apply IH, Hin.
Qed.

Lemma Math_max_undefined (args : list value) :
  In undefined args -> Math_max args = nan.
Proof.
  intros Hin. apply Math_max_from_nan.
  change nan with (ToNumber undefined). apply in_map, Hin.
Qed.

(** The maximum of zeros only, at least one, is zero. *)
Lemma Math_max_zeros (args : list float) :
  args <> [] -> Forall (fun x => x = zero) args ->
  Math_max_from neg_infinity args = zero.
Proof.
  intros Hne Hz. destruct args as [|x rest]; [contradiction|].
  inversion Hz as [|? ? -> Hrest]; subst. simpl.
  clear Hne Hz. induction Hrest as [|y rest -> _ IH]; [reflexivity|exact IH].
Qed.

Lemma div_nan (x : float) : (x / nan)%float = nan.
Proof.
  rewrite <- (SF2Prim_Prim2SF (x / nan)). rewrite div_spec.
  change (Prim2SF nan) with S754_nan.
  destruct (Prim2SF x) as [s|s| |s m e]; try destruct s; reflexivity.
Qed.

(** ** Method calls on a field *)

Section Zoom.

Context {S T : Type} (get : S -> T) (set : T -> S -> S).
Hypothesis get_set : forall t s, get (set t s) = t.
Hypothesis set_set : forall t1 t2 s, set t2 (set t1 s) = set t2 s.
Hypothesis set_get : forall s, set (get s) s = s.

Lemma zoom_bind {A B} (m : M T A) (k : A -> M T B) (s : S) :
  bind (zoom get set m) (fun x => zoom get set (k x)) s = zoom get set (bind m k) s.
Proof.
  unfold bind, zoom. destruct (m (get s)) as [[x|e] t]; [|reflexivity].
  rewrite get_set. destruct (k x t) as [res t']. rewrite set_set. reflexivity.
Qed.

(** A loop of calls on the field is a call of the loop on the field. *)
Lemma zoom_for_loop (body : Z -> M T unit) (iters : nat) :
  forall i s,
    for_loop i iters (fun j => zoom get set (body j)) s
    = zoom get set (for_loop i iters body) s.
Proof.
  induction iters as [|n IH]; intros i s.
  - unfold zoom. simpl. unfold ret. rewrite set_get. reflexivity.
  - simpl. rewrite <- zoom_bind. unfold bind.
    destruct (zoom get set (body i) s) as [[[]|e] s']; [apply IH|reflexivity].
Qed.

End Zoom.

Lemma for_loop_ext {S} (body1 body2 : Z -> M S unit) :
  (forall i s, body1 i s = body2 i s) ->
  forall iters i s, for_loop i iters body1 s = for_loop i iters body2 s.
Proof.
  intros Hext. induction iters as [|n IH]; intros i s; [reflexivity|].
  simpl. unfold bind. rewrite Hext. destruct (body2 i s) as [[[]|e] s']; [apply IH|reflexivity].
Qed.

Lemma forEach_app {S A} (l1 l2 : list A) (f : A -> M S unit) (s : S) :
  forEach (l1 ++ l2) f s = bind (forEach l1 f) (fun _ => forEach l2 f) s.
Proof.
  revert s. induction l1 as [|x l1 IH]; intros s; [reflexivity|].
  simpl. unfold bind in *. destruct (f x s) as [[[]|e] s']; [apply IH|reflexivity].
Qed.

(** A loop whose iteration [i] stores [vy i] as the y value and then
    [vx i] as the x value of point [i]. *)
Lemma point_loop (vy vx : Z -> value) (this : WebglLine) (iters : nat) :
  exists a' : Float32Array,
    for_loop 0 iters
      (fun i => WebglLine.setY i (vy i) ;; WebglLine.setX i (vx i)) this
    = (Normal tt, set_xy a' this)
    /\ length a' = length (xy this)
    /\ (forall i, 0 <= i < Z.of_nat iters ->
          0 <= i * 2 + 1 < Z.of_nat (length (xy this)) ->
          Float32Array_get a' (i * 2) = number (fround (ToNumber (vx i)))
          /\ Float32Array_get a' (i * 2 + 1) = number (fround (ToNumber (vy i))))
    /\ (forall key, ~ (0 <= key < 2 * Z.of_nat iters) ->
          Float32Array_get a' key = Float32Array_get (xy this) key).
Proof.
  pose (Inv := fun (n : Z) (s : WebglLine) =>
    exists a' : Float32Array, s = set_xy a' this
      /\ length a' = length (xy this)
      /\ (forall i, 0 <= i < n -> 0 <= i * 2 + 1 < Z.of_nat (length (xy this)) ->
            Float32Array_get a' (i * 2) = number (fround (ToNumber (vx i)))
            /\ Float32Array_get a' (i * 2 + 1) = number (fround (ToNumber (vy i))))
      /\ (forall key, ~ (0 <= key < 2 * n) ->
            Float32Array_get a' key = Float32Array_get (xy this) key)).
  destruct (for_loop_inv Inv
              (fun i => WebglLine.setY i (vy i) ;; WebglLine.setX i (vx i))
              iters 0 this) as (s' & Hrun & a' & -> & Hlen & Hw & Hk).
  - exists (xy this). rewrite set_xy_same.
    split; [reflexivity|]. split; [reflexivity|]. split; [intros; lia|reflexivity].
  - intros i s Hi (a1 & -> & Hlen & Hw & Hk).
    eexists. split; [reflexivity|].
    exists (Float32Array_set (Float32Array_set a1 (i * 2 + 1) (vy i)) (i * 2) (vx i)).
    simpl. split; [reflexivity|]. split; [|split].
    + rewrite !Float32Array_set_length. exact Hlen.
    + intros j Hj Hin. destruct (Z.eq_dec j i) as [->|Hne].
      * split.
        -- apply Float32Array_get_set_eq. rewrite Float32Array_set_length, Hlen. lia.
        -- rewrite Float32Array_get_set_ne by lia.
           apply Float32Array_get_set_eq. rewrite Hlen. lia.
      * rewrite !Float32Array_get_set_ne by lia. apply Hw; [lia|exact Hin].
    + intros key Hkey. rewrite !Float32Array_get_set_ne by lia. apply Hk. lia.
  - exists a'. simpl in *. replace (0 + Z.of_nat iters) with (Z.of_nat iters) in * by lia.
    auto.
Qed.

Section Microphone_facts.

Variable log10 : float -> float.

Lemma set_lineTime_get (p : page) : set_lineTime (lineTime p) p = p.
Proof. destruct p; reflexivity. Qed.

Lemma set_lineFreq_get (p : page) : set_lineFreq (lineFreq p) p = p.
Proof. destruct p; reflexivity. Qed.

(** [update] completes normally.  It replaces the window by its tail
    followed by the peak of the samples, stores a y and an x value for
    the points of [lineFreq] and a y value for the points of [lineTime],
    one per byte and per sample, and changes nothing else. *)
Lemma update_run_page (dataArray : list Z) (buffer : Float32Array) (p : page) :
  let maxF := Math_max (map (fun byte => number (Z2float byte)) dataArray) in
  let window := tail (maxA p) ++ [peak (dataArray, buffer)] in
  exists af a_t : Float32Array,
    Microphone.update log10 dataArray buffer p
    = (Normal tt, {| lineTime := set_xy a_t (lineTime p);
                     lineFreq := set_xy af (lineFreq p);
                     maxA := window |})
    /\ length af = length (xy (lineFreq p))
    /\ length a_t = length (xy (lineTime p))
    /\ (forall i, 0 <= i < Z.of_nat (length dataArray) ->
          0 <= i * 2 + 1 < Z.of_nat (length (xy (lineFreq p))) ->
          Float32Array_get af (i * 2) = number (fround (log10 (Z2float i) / 2)%float)
          /\ Float32Array_get af (i * 2 + 1)
             = number (fround (ToNumber (Uint8Array_get dataArray i) / maxF)%float))
    /\ (forall key, ~ (0 <= key < 2 * Z.of_nat (length dataArray)) ->
          Float32Array_get af key = Float32Array_get (xy (lineFreq p)) key)
    /\ (forall i, 0 <= i < Z.of_nat (length buffer) ->
          0 <= i * 2 + 1 < Z.of_nat (length (xy (lineTime p))) ->
          Float32Array_get a_t (i * 2 + 1)
          = number (fround (ToNumber (Array_get buffer i) / Math_max window)%float))
    /\ (forall key, (forall i, 0 <= i < Z.of_nat (length buffer) -> key <> i * 2 + 1) ->
          Float32Array_get a_t key = Float32Array_get (xy (lineTime p)) key).
Proof.
  intros maxF window.
  destruct (point_loop
              (fun i => number (ToNumber (Uint8Array_get dataArray i) / maxF)%float)
              (fun i => number (log10 (Z2float i) / 2)%float)
              (lineFreq p) (length dataArray)) as (af & Hrunf & Hlf & Hwf & Hkf).
  destruct (store_loop (fun i => i * 2 + 1)
              (fun i => number (ToNumber (Array_get buffer i) / Math_max window)%float)
              (fun i => WebglLine.setY i
                          (number (ToNumber (Array_get buffer i) / Math_max window)%float))
              (lineTime p) (length buffer)) as (a_t & Hrunt & Hlt & Hwt & Hkt).
  { intros i j. lia. }
  { intros i s. reflexivity. }
  exists af, a_t. split; [|auto 10].
  unfold Microphone.update, for_upto. fold maxF. rewrite !Nat2Z.id.
  erewrite bind_Normal; cycle 1.
  { erewrite for_loop_ext; cycle 1.
    { intros i s.
      apply (zoom_bind lineFreq set_lineFreq (fun _ _ => eq_refl) (fun _ _ _ => eq_refl)). }
    rewrite (zoom_for_loop lineFreq set_lineFreq (fun _ _ => eq_refl)
               (fun _ _ _ => eq_refl) set_lineFreq_get).
    unfold zoom. rewrite Hrunf. reflexivity. }
  erewrite bind_Normal by reflexivity.
  erewrite bind_Normal by reflexivity.
  run_gets. cbn [maxA set_maxA set_lineFreq lineTime lineFreq].
  unfold window, peak in *. cbn [snd] in *.
  rewrite (zoom_for_loop lineTime set_lineTime (fun _ _ => eq_refl)
             (fun _ _ _ => eq_refl) set_lineTime_get).
  unfold zoom. cbn [maxA set_maxA set_lineFreq lineTime lineFreq].
  rewrite Hrunt. reflexivity.
Qed.

(** X13.  The spectrum line.  On a page whose [lineFreq] has capacity
    [n], [update] completes normally and keeps that capacity; for every
    point [i] below [n] that has a byte [dataArray[i]], the x value
    becomes [Math.log10(i) / 2] and the y value [dataArray[i] / maxF],
    both rounded to the storage width, where [maxF] is the maximum of the
    bytes; the points from [dataArray.length] on keep their values. *)
Theorem update_spectrum (dataArray : list Z) (buffer : Float32Array) (p : page) (n : Z) :
  capacity (lineFreq p) n ->
  exists p',
    Microphone.update log10 dataArray buffer p = (Normal tt, p')
    /\ capacity (lineFreq p') n
    /\ (forall i byte, 0 <= i < n -> dataArray !! Z.to_nat i = Some byte ->
          fst (WebglLine.getX i (lineFreq p'))
          = Normal (number (fround (log10 (Z2float i) / 2)%float))
          /\ fst (WebglLine.getY i (lineFreq p'))
             = Normal (number (fround
                 (Z2float byte
                  / Math_max (map (fun b => number (Z2float b)) dataArray))%float)))
    /\ (forall i, Z.of_nat (length dataArray) <= i ->
          fst (WebglLine.getX i (lineFreq p')) = fst (WebglLine.getX i (lineFreq p))
          /\ fst (WebglLine.getY i (lineFreq p')) = fst (WebglLine.getY i (lineFreq p))).
Proof.
  intros [Hn Hlen].
  destruct (update_run_page dataArray buffer p)
    as (af & a_t & Hrun & Hlf & _ & Hwf & Hkf & _).
  eexists. split; [exact Hrun|]. cbn [lineFreq].
  split; [split; [exact Hn|simpl; rewrite Hlf; exact Hlen]|]. split.
  - intros i byte Hi Hbyte.
    pose proof (lookup_lt_Some _ _ _ Hbyte) as Hlt.
    destruct (Hwf i) as [Hx Hy]; [lia|lia|].
    rewrite getX_run, getY_run. cbn [fst xy set_xy]. rewrite Hx, Hy.
    unfold Uint8Array_get. destruct (Z.leb_spec 0 i); [|lia].
    rewrite Hbyte. split; reflexivity.
  - intros i Hi. rewrite !getX_run, !getY_run. cbn [fst xy set_xy].
    rewrite !Hkf by lia. split; reflexivity.
Qed.

(** X14.  Silence gives no spectrum: when every byte is 0 (and there is
    one at least), [maxF] is 0 and [update] sets the y value of every
    point of [lineFreq] that has a byte to [NaN]. *)
Theorem update_silence (dataArray : list Z) (buffer : Float32Array) (p : page) (n : Z) :
  capacity (lineFreq p) n ->
  dataArray <> [] ->
  Forall (fun byte => byte = 0) dataArray ->
  exists p',
    Microphone.update log10 dataArray buffer p = (Normal tt, p')
    /\ forall i, 0 <= i < n -> i < Z.of_nat (length dataArray) ->
          fst (WebglLine.getY i (lineFreq p')) = Normal (number nan).
Proof.
  intros Hc Hne Hz.
  destruct (update_spectrum dataArray buffer p n Hc) as (p' & Hrun & _ & Hw & _).
  exists p'. split; [exact Hrun|]. intros i Hi Hlt.
  destruct (lookup_lt_is_Some_2 dataArray (Z.to_nat i)) as [byte Hbyte]; [lia|].
  destruct (Hw i byte Hi Hbyte) as [_ ->].
  rewrite (proj1 (Forall_lookup _ _) Hz _ _ Hbyte).
  unfold Math_max. rewrite map_map. cbn [ToNumber].
  rewrite Math_max_zeros; [reflexivity| |].
  - destruct dataArray; [contradiction|discriminate].
  - apply Forall_map. eapply Forall_impl; [exact Hz|].
    intros byte' ->. reflexivity.
Qed.

(** X15.  The time trace.  On a page whose [lineTime] has capacity [n],
    [update] completes normally and keeps that capacity, so the samples
    from [n] on are dropped; it changes no x value of [lineTime]; the y
    value of every point [i] below [n] that has a sample becomes
    [buffer[i] / maxAcurrent], rounded to the storage width, where
    [maxAcurrent] is the maximum over the new window; the points from
    [buffer.length] on keep their y values. *)
Theorem update_time_trace (dataArray : list Z) (buffer : Float32Array) (p : page) (n : Z) :
  capacity (lineTime p) n ->
  exists p',
    Microphone.update log10 dataArray buffer p = (Normal tt, p')
    /\ capacity (lineTime p') n
    /\ maxA p' = tail (maxA p) ++ [peak (dataArray, buffer)]
    /\ (forall i, fst (WebglLine.getX i (lineTime p')) = fst (WebglLine.getX i (lineTime p)))
    /\ (forall i, 0 <= i < n -> i < Z.of_nat (length buffer) ->
          fst (WebglLine.getY i (lineTime p'))
          = Normal (number (fround
              (ToNumber (Array_get buffer i) / Math_max (maxA p'))%float)))
    /\ (forall i, Z.of_nat (length buffer) <= i ->
          fst (WebglLine.getY i (lineTime p')) = fst (WebglLine.getY i (lineTime p))).
Proof.
  intros [Hn Hlen].
  destruct (update_run_page dataArray buffer p)
    as (af & a_t & Hrun & _ & Hlt & _ & _ & Hwt & Hkt).
  eexists. split; [exact Hrun|]. cbn [lineTime maxA].
  split; [split; [exact Hn|simpl; rewrite Hlt; exact Hlen]|].
  split; [reflexivity|]. split; [|split].
  - intros i. rewrite !getX_run. cbn [fst xy set_xy].
    rewrite Hkt by (intros; lia). reflexivity.
  - intros i Hi Hb. rewrite getY_run. cbn [fst xy set_xy].
    rewrite Hwt by lia. reflexivity.
  - intros i Hi. rewrite !getY_run. cbn [fst xy set_xy].
    rewrite Hkt by (intros; lia). reflexivity.
Qed.

(** Successive [update]s complete normally; they keep the point counts
    and buffer lengths of both lines and slide the window. *)
Lemma updates_run (frames : list (list Z * Float32Array)) :
  forall p, exists p',
    Microphone.updates log10 frames p = (Normal tt, p')
    /\ (maxA p <> [] ->
        maxA p' = drop (length frames) (maxA p ++ map peak frames))
    /\ numPoints (lineTime p') = numPoints (lineTime p)
    /\ length (xy (lineTime p')) = length (xy (lineTime p)).
Proof.
  induction frames as [|[d b] frames IH]; intros p.
  - exists p. split; [reflexivity|]. split; [|split; reflexivity].
    intros _. simpl. rewrite app_nil_r. reflexivity.
  - destruct (update_run_page d b p) as (af & a_t & Hrun & _ & Hlt & _).
    destruct (IH {| lineTime := set_xy a_t (lineTime p);
                    lineFreq := set_xy af (lineFreq p);
                    maxA := tail (maxA p) ++ [peak (d, b)] |})
      as (p' & Hrest & Hwin & Hnp & Hlen).
    exists p'. split; [|split; [|split]].
    + unfold Microphone.updates in *. simpl forEach.
      rewrite (bind_Normal _ _ _ _ _ Hrun). exact Hrest.
    + intros Hne. cbn [maxA] in Hwin. rewrite Hwin by (destruct (tail (maxA p)); discriminate).
      destruct (maxA p) as [|x window]; [contradiction|].
      simpl. rewrite <- app_assoc. reflexivity.
    + rewrite Hnp. reflexivity.
    + rewrite Hlen. simpl. exact Hlt.
Qed.

(** X16.  The window slides: after [update] has run for each frame of
    [frames], a window that was not empty has kept its length and holds
    what is left of its entries followed by the peaks of the frames, the
    oldest [frames.length] entries dropped. *)
Theorem updates_window (frames : list (list Z * Float32Array)) (p : page) :
  maxA p <> [] ->
  exists p',
    Microphone.updates log10 frames p = (Normal tt, p')
    /\ maxA p' = drop (length frames) (maxA p ++ map peak frames)
    /\ length (maxA p') = length (maxA p).
Proof.
  intros Hne. destruct (updates_run frames p) as (p' & Hrun & Hwin & _).
  exists p'. split; [exact Hrun|]. rewrite (Hwin Hne). split; [reflexivity|].
  rewrite length_drop, length_app, length_map. lia.
Qed.

(** X17.  Once [update] has run for 120 frames or more, the window, of
    120 slots, holds the peaks of the last 120 frames and nothing of
    what it held before: no empty slot is left. *)
Theorem window_steady (frames : list (list Z * Float32Array)) (p : page) :
  length (maxA p) = 120%nat ->
  (120 <= length frames)%nat ->
  exists p',
    Microphone.updates log10 frames p = (Normal tt, p')
    /\ maxA p' = map peak (drop (length frames - 120) frames).
Proof.
  intros Hwindow Hlen. destruct (updates_run frames p) as (p' & Hrun & Hwin & _).
  exists p'. split; [exact Hrun|].
  rewrite Hwin by (intros E; rewrite E in Hwindow; discriminate).
  rewrite drop_app_ge by lia. rewrite Hwindow. apply skipn_map.
Qed.

(** X18.  The time trace starts blank: while the window is as created,
    120 empty slots, the first 119 calls of [update] leave it with an
    empty slot, so [maxAcurrent] is [NaN] and each of these calls sets
    the y value of every point of [lineTime] that has a sample to
    [NaN]. *)
Theorem time_trace_starts_blank (frames : list (list Z * Float32Array))
    (dataArray : list Z) (buffer : Float32Array) (p : page) (n : Z) :
  maxA p = replicate 120 undefined ->
  (length frames < 119)%nat ->
  capacity (lineTime p) n ->
  exists p',
    Microphone.updates log10 (frames ++ [(dataArray, buffer)]) p = (Normal tt, p')
    /\ forall i, 0 <= i < n -> i < Z.of_nat (length buffer) ->
          fst (WebglLine.getY i (lineTime p')) = Normal (number nan).
Proof.
  intros Hfresh Hfew [Hn Hlen].
  destruct (updates_run frames p) as (p1 & Hrun1 & Hwin & Hnp & Hl).
  specialize (Hwin ltac:(rewrite Hfresh; discriminate)). rewrite Hfresh in Hwin.
  destruct (update_time_trace dataArray buffer p1 n) as (p' & Hrun & _ & Hwin' & _ & Hy & _).
  { split; [congruence|]. rewrite Hl. exact Hlen. }
  exists p'. split.
  - unfold Microphone.updates in *. rewrite forEach_app.
    rewrite (bind_Normal _ _ _ _ _ Hrun1). simpl.
    rewrite (bind_Normal _ _ _ _ _ Hrun). reflexivity.
  - intros i Hi Hb. rewrite (Hy i Hi Hb).
    assert (Hnan : Math_max (maxA p') = nan).
    { apply Math_max_undefined. rewrite Hwin', Hwin.
      rewrite drop_app_le by (rewrite length_replicate; lia).
      rewrite drop_replicate.
      destruct (120 - length frames)%nat as [|[|m]] eqn:Hm; [lia|lia|].
      simpl. left. reflexivity. }
    rewrite Hnan, div_nan. reflexivity.
Qed.

End Microphone_facts.

Lemma update_spectrum_witness :
  capacity (lineFreq page0) 4
  /\ fst (WebglLine.getY 1
            (lineFreq (snd (Microphone.update (fun x => x) [1; 2] [] page0))))
     = Normal (number 1).
Proof.
  assert (Hc : capacity (lineFreq page0) 4) by (split; reflexivity).
  split; [exact Hc|].
  destruct (update_spectrum (fun x => x) [1; 2] [] page0 4 Hc) as (p' & Hrun & _ & Hw & _).
  rewrite Hrun. cbn [snd].
  destruct (Hw 1 2) as [_ Hy]; [lia|reflexivity|].
  rewrite Hy. reflexivity.
Defined.

Lemma update_silence_witness :
  capacity (lineFreq page0) 4 /\ [0; 0] <> @nil Z /\ Forall (fun byte => byte = 0) [0; 0]
  /\ fst (WebglLine.getY 1
            (lineFreq (snd (Microphone.update (fun x => x) [0; 0] [] page0))))
     = Normal (number nan).
Proof.
  assert (Hc : capacity (lineFreq page0) 4) by (split; reflexivity).
  assert (Hne : [0; 0] <> @nil Z) by discriminate.
  assert (Hz : Forall (fun byte => byte = 0) [0; 0]) by (repeat constructor).
  split; [exact Hc|]. split; [exact Hne|]. split; [exact Hz|].
  destruct (update_silence (fun x => x) [0; 0] [] page0 4 Hc Hne Hz) as (p' & Hrun & Hy).
  rewrite Hrun. cbn [snd]. apply Hy; simpl; lia.
Defined.

Lemma update_time_trace_witness :
  capacity (lineTime page0) 4
  /\ maxA (snd (Microphone.update (fun x => x) [] [1; 2]%float page0))
     = replicate 119 undefined ++ [number 2].
Proof.
  assert (Hc : capacity (lineTime page0) 4) by (split; reflexivity).
  split; [exact Hc|].
  destruct (update_time_trace (fun x => x) [] [1; 2]%float page0 4 Hc)
    as (p' & Hrun & _ & Hwin & _).
  rewrite Hrun. cbn [snd]. rewrite Hwin. reflexivity.
Defined.

Lemma updates_window_witness :
  maxA page0 <> []
  /\ maxA (snd (Microphone.updates (fun x => x)
                  [([], [1]%float); ([], [3; 2]%float)] page0))
     = replicate 118 undefined ++ [number 1; number 3].
Proof.
  assert (Hne : maxA page0 <> []) by discriminate.
  split; [exact Hne|].
  destruct (updates_window (fun x => x) [([], [1]%float); ([], [3; 2]%float)] page0 Hne)
    as (p' & Hrun & Hwin & _).
  rewrite Hrun. cbn [snd]. rewrite Hwin. reflexivity.
Defined.

Lemma window_steady_witness :
  length (maxA page0) = 120%nat
  /\ (120 <= length (replicate 121 (@nil Z, [2]%float)))%nat
  /\ maxA (snd (Microphone.updates (fun x => x)
                  (replicate 121 (@nil Z, [2]%float)) page0))
     = replicate 120 (number 2).
Proof.
  assert (Hwindow : length (maxA page0) = 120%nat) by reflexivity.
  assert (Hlen : (120 <= length (replicate 121 (@nil Z, [2]%float)))%nat)
    by (rewrite length_replicate; lia).
  split; [exact Hwindow|]. split; [exact Hlen|].
  destruct (window_steady (fun x => x) (replicate 121 (@nil Z, [2]%float)) page0
              Hwindow Hlen) as (p' & Hrun & Hwin).
  rewrite Hrun. cbn [snd]. rewrite Hwin. reflexivity.
Defined.

Lemma time_trace_starts_blank_witness :
  maxA page0 = replicate 120 undefined
  /\ (length [(@nil Z, [1]%float)] < 119)%nat /\ capacity (lineTime page0) 4
  /\ fst (WebglLine.getY 1
            (lineTime (snd (Microphone.updates (fun x => x)
                              ([(@nil Z, [1]%float)] ++ [(@nil Z, [1; 2]%float)]) page0))))
     = Normal (number nan).
Proof.
  assert (Hfresh : maxA page0 = replicate 120 undefined) by reflexivity.
  assert (Hfew : (length [(@nil Z, [1]%float)] < 119)%nat) by (simpl; lia).
  assert (Hc : capacity (lineTime page0) 4) by (split; reflexivity).
  split; [exact Hfresh|]. split; [exact Hfew|]. split; [exact Hc|].
  destruct (time_trace_starts_blank (fun x => x) [(@nil Z, [1]%float)] [] [1; 2]%float
              page0 4 Hfresh Hfew Hc) as (p' & Hrun & Hy).
  rewrite Hrun. cbn [snd]. apply Hy; simpl; lia.
Defined.
